(** * ProxyReduxAction: handler classification, reducer synthesis and
      dispatch interception

    A shallow embedding of [src/redux/ProxyReduxAction.ts].  The module turns
    a handler object into a redux reducer ([createReducerByHandler]) and into
    a proxy whose property accesses dispatch actions ([createReduxHandler]);
    the two kinds of action are told apart by the suffix
    [SAGA_ACTION_TYPE_SUFFIX] of the action type.

    Conventions of the embedding:
    - JavaScript strings are [string]; the suffix and every name the module
      builds are ASCII;
    - a JavaScript object used as a dictionary ([actions], the [Map] held in
      [actionNames]) is a [gmap] with string keys; [actions] is a plain
      object, so reading [actions[type]] also finds the members it inherits
      from [Object.prototype];
    - the module is an ES module, hence strict code: in a call
      [handle(state, payload)] the callee has [this] undefined;
    - the [Map] objects live in a store addressed by locations, so that the
      identity of the object held in [handler.actionNames] can be stated;
    - a call that may raise returns a [completion];
    - [console.log] calls are not modelled. *)

From Stdlib Require Import ZArith.
From stdpp Require Import gmap strings list fin_maps.

Open Scope string_scope.

(** ** JavaScript strings *)

Module JSString.

(** [s.startsWith(p)] *)
Fixpoint startsWith (s p : string) {struct p} : bool :=
  match p, s with
  | EmptyString, _ => true
  | String _ _, EmptyString => false
  | String a p', String b s' => Ascii.eqb a b && startsWith s' p'
  end.

(** The string left after its first [n] characters. *)
Fixpoint drop (n : nat) (s : string) : string :=
  match n, s with
  | O, _ => s
  | S _, EmptyString => EmptyString
  | S n', String _ s' => drop n' s'
  end.

(** [s.endsWith(p)]: the last [length p] characters of [s] are [p]. *)
Definition endsWith (s p : string) : bool :=
  if (String.length p <=? String.length s)%nat
  then String.eqb (drop (String.length s - String.length p)%nat s) p
  else false.

(** [s.includes(p)]: [p] occurs in [s] at some position. *)
Fixpoint includes (s p : string) : bool :=
  startsWith s p ||
  match s with
  | EmptyString => false
  | String _ s' => includes s' p
  end.

(** [s.replace(p, r)] for a string pattern [p] and a replacement [r]
    without [$] patterns: the first occurrence of [p], scanning from the
    left, is replaced, and [s] is returned as it is when [p] does not
    occur. *)
Fixpoint replace (s p r : string) : string :=
  if startsWith s p then r +:+ drop (String.length p) s
  else match s with
       | EmptyString => EmptyString
       | String c s' => String c (replace s' p r)
       end.

End JSString.

(** ** The tag codec *)

Definition SAGA_ACTION_TYPE_SUFFIX : string := "__SAGA".

Definition getReducerTypeNameBySaga (type : string) : string :=
  JSString.replace type SAGA_ACTION_TYPE_SUFFIX "".

Definition getSagaTypeNameByReducer (type : string) : string :=
  type +:+ SAGA_ACTION_TYPE_SUFFIX.

(** ** JavaScript values *)

(** What a state or a payload is: plain data, and the two kinds of object
    that the members of [Object.prototype] can give, the wrapper object of
    a primitive value and [Object.prototype] itself.  Numbers are integers
    here. *)
#[warnings="-register-all"] Inductive value : Type :=
| VUndefined
| VNull
| VBoolean (b : bool)
| VNumber (n : Z)
| VString (s : string)
| VObject (fields : list (string * value))
| VWrapper (primitive : value)
| VObjectPrototype.

(** The result of a call: a value, or an exception. *)
Inductive completion (A : Type) : Type :=
| Normal (a : A)
| Throw (error : string).
Arguments Normal {A} a.
Arguments Throw {A} error.

(** What [isGenerator] reads of the [prototype] property of a function:
    whether it is there at all, and the [constructor.name] of its
    [__proto__] ([None] when [__proto__] is null). *)
Inductive prototype_property : Type :=
| NoPrototype
| PrototypeObject (proto_constructor_name : option string).

(** A function value: what calling it with [(state, payload)] gives, and its
    [prototype] property.  Methods and arrow functions have no [prototype];
    a generator function compiled with the regenerator runtime has one whose
    [__proto__.constructor] is named [GeneratorFunctionPrototype]. *)
Record function : Type := {
  call : value -> value -> completion value;
  prototype : prototype_property
}.

(** A member of a handler, the value of one of its properties: data or a
    function. *)
Inductive member : Type :=
| HValue (v : value)
| HFunction (f : function).

Record property : Type := {
  prop_value : member;
  enumerable : bool
}.

(** The keys a proxy trap receives: strings and symbols. *)
Inductive PropertyKey : Type :=
| KString (s : string)
| KSymbol (description : string).

Abbreviation loc := nat.

(** A handler object.  [own] lists its own properties other than the two
    reserved ones, [proto] the own properties of [Object.getPrototypeOf
    (handler)], both in property order; [constructor_name] is
    [handler.constructor.name].  [actionNames] is [None] while the field is
    null or undefined and the location of its [Map] afterwards. *)
Module SagaHandler.
Record t : Type := {
  constructor_name : string;
  own : list (string * property);
  proto : list (string * property);
  default : value;
  actionNames : option loc
}.
End SagaHandler.

Module ReduxAction.
Record t : Type := {
  type : string;
  payload : value
}.
End ReduxAction.

(** The redux store is external: of a store the embedding keeps the actions
    its [dispatch] has received, oldest first. *)
Record Store : Type := {
  dispatched : list ReduxAction.t
}.

(** The mutable state the module works on: the [Map] objects, the module
    variable [DEFAULT_STORE] ([None] until a store is registered) and the
    handlers registered with the saga manager. *)
Record World : Type := {
  maps : list (gmap string string);
  DEFAULT_STORE : option Store;
  sagaHandlers : list string
}.

(** ** Computations on the world that may raise *)

Definition M (A : Type) : Type := World -> completion (A * World).

Definition ret {A} (a : A) : M A := fun w => Normal (a, w).

Definition bind {A B} (m : M A) (k : A -> M B) : M B :=
  fun w => match m w with
           | Normal (a, w') => k a w'
           | Throw e => Throw e
           end.

Definition throw {A} (e : string) : M A := fun _ => Throw e.

Notation "'let!' x ':=' m 'in' k" := (bind m (fun x => k))
  (at level 10, x pattern, m at level 100, k at level 200).

(** [l.forEach(...)] and [for (... of l)] with a body that updates [acc]. *)
Fixpoint forEach {A S} (l : list A) (body : A -> S -> M S) (acc : S) : M S :=
  match l with
  | [] => ret acc
  | x :: l' => let! acc' := body x acc in forEach l' body acc'
  end.

(** [new Map()]: the new object is the next location of the store. *)
Definition with_new_map (w : World) : World :=
  {| maps := maps w ++ [∅];
     DEFAULT_STORE := DEFAULT_STORE w;
     sagaHandlers := sagaHandlers w |}.

Definition Map_new : M loc :=
  fun w => Normal (length (maps w), with_new_map w).

(** [ref.set(k, v)]; on a null or undefined [ref] a [TypeError]. *)
Definition Map_set (ref : option loc) (k v : string) : M unit :=
  match ref with
  | None => throw "TypeError: Cannot read property 'set' of undefined"
  | Some l => fun w => Normal (tt,
                   {| maps := alter (insert k v) l (maps w);
                      DEFAULT_STORE := DEFAULT_STORE w;
                      sagaHandlers := sagaHandlers w |})
  end.

(** [Array.from(m.values())] of the map at [l]. *)
Definition Map_values (l : loc) (w : World) : list string :=
  match maps w !! l with
  | Some m => (map_to_list m).*2
  | None => []
  end.

(** ** Reading properties *)

Fixpoint lookup_property (key : string) (ps : list (string * property))
  : option property :=
  match ps with
  | [] => None
  | (k, p) :: ps' => if String.eqb k key then Some p else lookup_property key ps'
  end.

Definition isNullOrUndefined (h : member) : bool :=
  match h with
  | HValue VUndefined | HValue VNull => true
  | _ => false
  end.

Definition isUndefined (h : member) : bool :=
  match h with
  | HValue VUndefined => true
  | _ => false
  end.

Definition isFunction (h : member) : bool :=
  match h with
  | HFunction _ => true
  | HValue _ => false
  end.

(** [h === s] for a string [s] *)
Definition strict_equals_string (h : member) (s : string) : bool :=
  match h with
  | HValue (VString s') => String.eqb s' s
  | _ => false
  end.

(** [h.prototype] *)
Definition handle_prototype (h : member) : prototype_property :=
  match h with
  | HFunction f => prototype f
  | HValue _ => NoPrototype
  end.

(** The own property names of [Object.prototype], all of them not
    enumerable; a handler prototype inherits them. *)
Definition Object_prototype_names : list string :=
  ["constructor"; "__defineGetter__"; "__defineSetter__"; "hasOwnProperty";
   "__lookupGetter__"; "__lookupSetter__"; "isPrototypeOf";
   "propertyIsEnumerable"; "toString"; "valueOf"; "__proto__";
   "toLocaleString"].

(** [typeof v === "object"] for a value other than null, or a function:
    whether [v] is an object. *)
Definition is_object (v : value) : bool :=
  match v with
  | VObject _ | VWrapper _ | VObjectPrototype => true
  | _ => false
  end.

(** [Object(v)] called as a function: a new empty object for undefined and
    null, the wrapper object of a primitive, an object as it is. *)
Definition Object_call (v : value) : value :=
  match v with
  | VUndefined | VNull => VObject []
  | VBoolean _ | VNumber _ | VString _ => VWrapper v
  | VObject _ | VWrapper _ | VObjectPrototype => v
  end.

(** A built-in method of [Object.prototype], by what the call
    [method(state, payload)] with [this] undefined gives. *)
Definition builtin (body : value -> value -> completion value) : property :=
  {| prop_value := HFunction {| call := body; prototype := NoPrototype |};
     enumerable := false |}.

(** [ToObject(undefined)] *)
Definition undefined_this : completion value :=
  Throw "TypeError: Cannot convert undefined or null to object".

(** The own properties of [Object.prototype], read through an object that
    inherits them, in the order of [Object_prototype_names].  Called with
    [this] undefined, every method but three raises when it converts
    [this] to an object: [Object] does not read [this], [toString] answers
    for undefined, and [isPrototypeOf] answers false for an argument that is
    no object before it reads [this].  [__proto__] is an accessor; read
    through an ordinary object it gives [Object.prototype]. *)
Definition Object_prototype : list (string * property) :=
  [("constructor",
    {| prop_value :=
         HFunction {| call := fun state _ => Normal (Object_call state);
                      prototype := PrototypeObject None |};
       enumerable := false |});
   ("__defineGetter__", builtin (fun _ _ => undefined_this));
   ("__defineSetter__", builtin (fun _ _ => undefined_this));
   ("hasOwnProperty", builtin (fun _ _ => undefined_this));
   ("__lookupGetter__", builtin (fun _ _ => undefined_this));
   ("__lookupSetter__", builtin (fun _ _ => undefined_this));
   ("isPrototypeOf",
    builtin (fun state _ =>
               if is_object state then undefined_this
               else Normal (VBoolean false)));
   ("propertyIsEnumerable", builtin (fun _ _ => undefined_this));
   ("toString", builtin (fun _ _ => Normal (VString "[object Undefined]")));
   ("valueOf", builtin (fun _ _ => undefined_this));
   ("__proto__",
    {| prop_value := HValue VObjectPrototype; enumerable := false |});
   ("toLocaleString", builtin (fun _ _ => undefined_this))].

(** [key in handlerPrototype] *)
Definition in_prototype (key : string) (handlerPrototype : list (string * property))
  : bool :=
  match lookup_property key handlerPrototype with
  | Some _ => true
  | None => existsb (String.eqb key) Object_prototype_names
  end.

(** [handler[key]]: the own property, else the one of the prototype. *)
Definition get (handler : SagaHandler.t) (key : string) : member :=
  match lookup_property key (SagaHandler.own handler) with
  | Some p => prop_value p
  | None =>
      match lookup_property key (SagaHandler.proto handler) with
      | Some p => prop_value p
      | None => HValue VUndefined
      end
  end.

(** The keys [for (const key in handler)] visits: the enumerable own
    properties, then the enumerable properties of the prototype that no own
    property hides. *)
Definition for_in (handler : SagaHandler.t) : list string :=
  (List.filter (fun kp => enumerable kp.2) (SagaHandler.own handler)).*1 ++
  (List.filter
     (fun kp => enumerable kp.2 &&
                negb (existsb (String.eqb kp.1) (SagaHandler.own handler).*1))
     (SagaHandler.proto handler)).*1.

(** [Object.getOwnPropertyNames(handlerPrototype)] *)
Definition getOwnPropertyNames (ps : list (string * property)) : list string :=
  ps.*1.

(** ** The module *)

(** Modelled from the spec: [FindNameStragegy.convertFunctionNameByPrefix] is
    not among the sources.  The getter name derived from a setter name:
    the prefix "set" is stripped and the first remaining character is
    lower-cased ([setCount] gives [count]).  A name without the prefix, for
    which the module never calls it, is returned as it is. *)
Definition toLowerCase_first (s : string) : string :=
  match s with
  | EmptyString => EmptyString
  | String c s' =>
      let n := Ascii.nat_of_ascii c in
      String (if (65 <=? n)%nat && (n <=? 90)%nat
              then Ascii.ascii_of_nat (n + 32) else c) s'
  end.

Definition convertFunctionNameByPrefix (name : string) : string :=
  if JSString.startsWith name "set"
  then toLowerCase_first (JSString.drop 3 name)
  else name.

(** Modelled from the spec: [SagaManager.addSagaHandler] is not among the
    sources.  It records the handler, here by its name, in the registry of
    handlers the saga subsystem reads. *)
Definition addSagaHandler (handler : SagaHandler.t) : M unit :=
  fun w => Normal (tt,
    {| maps := maps w;
       DEFAULT_STORE := DEFAULT_STORE w;
       sagaHandlers := sagaHandlers w ++ [SagaHandler.constructor_name handler] |}).

(** [store.dispatch(action)] of redux hands the action to the store and
    returns it. *)
Definition Store_dispatch (store : Store) (action : ReduxAction.t)
  : ReduxAction.t * Store :=
  (action, {| dispatched := dispatched store ++ [action] |}).

Definition registerStoreByProxy (store : Store) : M unit :=
  fun w => Normal (tt,
    {| maps := maps w;
       DEFAULT_STORE := Some store;
       sagaHandlers := sagaHandlers w |}).

Definition proxyDispatchBySaga (type : string) (payload : value)
    (pureAction : bool) : M ReduxAction.t :=
  let byReducer :=
    if pureAction then type else getSagaTypeNameByReducer type in
  fun w =>
    match DEFAULT_STORE w with
    | None => Throw "TypeError: Cannot read property 'dispatch' of undefined"
    | Some store =>
        let '(result, store') :=
          Store_dispatch store
            {| ReduxAction.type := byReducer; ReduxAction.payload := payload |} in
        Normal (result,
                {| maps := maps w;
                   DEFAULT_STORE := Some store';
                   sagaHandlers := sagaHandlers w |})
    end.

(** The template literal [`${handlerName}.${p}`]: a symbol does not convert
    to a string. *)
Definition qualified_name (handlerName : string) (p : PropertyKey)
  : completion string :=
  match p with
  | KString s => Normal (handlerName +:+ "." +:+ s)
  | KSymbol _ => Throw "TypeError: Cannot convert a Symbol value to a string"
  end.

(** [item === p] for an [item] of the map, a string. *)
Definition item_equals (item : string) (p : PropertyKey) : bool :=
  match p with
  | KString s => String.eqb item s
  | KSymbol _ => false
  end.

(** What the closures of a proxy hold: [handlerName] and [pureAction].  The
    target is the handler itself, read when a forwarding function runs. *)
Record Proxy : Type := {
  handlerName : string;
  pureAction : bool
}.

(** The function the [get] trap returns for the key [p], applied to
    [params]. *)
Definition proxyHandler_get (proxy : Proxy) (target : SagaHandler.t)
    (p : PropertyKey) (params : list value) : M ReduxAction.t :=
  fun w =>
    let isPureAction := pureAction proxy in
    let isPureAction :=
      match SagaHandler.actionNames target with
      | Some names =>
          if negb isPureAction
          then foldl (fun isPure item =>
                        if item_equals item p then true else isPure)
                     isPureAction (Map_values names w)
          else isPureAction
      | None => isPureAction
      end in
    match qualified_name (handlerName proxy) p with
    | Throw e => Throw e
    | Normal type =>
        proxyDispatchBySaga type (nth 0 params VUndefined) isPureAction w
    end.

(** The [set] trap: nothing is written and the write is reported done. *)
Definition proxyHandler_set (proxy : Proxy) (target : SagaHandler.t)
    (p : PropertyKey) (v : member) : M bool :=
  ret true.

Definition createReduxHandler (handler : SagaHandler.t) (pureAction : bool)
  : M Proxy :=
  let! _ := addSagaHandler handler in
  ret {| handlerName := SagaHandler.constructor_name handler;
         pureAction := pureAction |}.

Definition isGenerator (prototype : prototype_property) : bool :=
  match prototype with
  | NoPrototype => false
  | PrototypeObject None => false
  | PrototypeObject (Some name) => String.eqb name "GeneratorFunctionPrototype"
  end.

Definition USE_NEW_SATE : string := "__USE_NEW_SATE__".

Definition addAction (actions : gmap string member) (handlerName key : string)
    (handle : member) (handlerPrototype : list (string * property))
    (handler : SagaHandler.t) : M (gmap string member) :=
  let actions := <[handlerName +:+ "." +:+ key := handle]> actions in
  if JSString.startsWith key "set" then
    let getFuncName := convertFunctionNameByPrefix key in
    if in_prototype getFuncName handlerPrototype then
      let! _ := Map_set (SagaHandler.actionNames handler) getFuncName key in
      ret actions
    else ret actions
  else ret actions.

(** A parameter declared [state = defaultState]: an argument that is
    undefined is replaced by the default value. *)
Definition default_parameter (defaultState state : value) : value :=
  match state with
  | VUndefined => defaultState
  | _ => state
  end.

(** [actions[type]] for the object [actions = {}]: its own property, else
    the one it inherits from [Object.prototype], else undefined. *)
Definition actions_get (actions : gmap string member) (type : string) : member :=
  match actions !! type with
  | Some handle => handle
  | None =>
      match lookup_property type Object_prototype with
      | Some p => prop_value p
      | None => HValue VUndefined
      end
  end.

(** The function [createReducerByHandler] returns, closed over [actions] and
    [defaultState]. *)
Definition reducer (actions : gmap string member) (defaultState : value)
    (state : value) (action : ReduxAction.t) : completion value :=
  let state := default_parameter defaultState state in
  let type := ReduxAction.type action in
  let payload := ReduxAction.payload action in
  if JSString.endsWith type SAGA_ACTION_TYPE_SUFFIX then Normal state
  else
    let handle := actions_get actions type in
    if isUndefined handle then Normal state
    else if strict_equals_string handle USE_NEW_SATE
    then Normal (ReduxAction.payload action)
    else match handle with
         | HFunction f => call f state payload
         | HValue v => Normal v
         end.

(** [handler.actionNames = names] *)
Definition with_actionNames (handler : SagaHandler.t) (names : loc)
  : SagaHandler.t :=
  {| SagaHandler.constructor_name := SagaHandler.constructor_name handler;
     SagaHandler.own := SagaHandler.own handler;
     SagaHandler.proto := SagaHandler.proto handler;
     SagaHandler.default := SagaHandler.default handler;
     SagaHandler.actionNames := Some names |}.

(** The body of [createReducerByHandler] up to its [return]: the handler
    with its [actionNames] set, and the table [actions]. *)
Definition build_actions (handler : SagaHandler.t)
  : M (SagaHandler.t * gmap string member) :=
  let handlerName := SagaHandler.constructor_name handler in
  let actions : gmap string member := ∅ in
  let! handler :=
    match SagaHandler.actionNames handler with
    | None =>
        let! names := Map_new in
        ret (with_actionNames handler names)
    | Some _ => ret handler
    end in
  let handlerPrototype := SagaHandler.proto handler in
  let keys := getOwnPropertyNames handlerPrototype in
  let! actions :=
    forEach (for_in handler)
      (fun key actions =>
         if String.eqb key "actionNames" || String.eqb key "default"
         then ret actions
         else addAction actions handlerName key (get handler key)
                        handlerPrototype handler)
      actions in
  let! actions :=
    forEach (List.filter (fun key => negb (String.eqb key "constructor")) keys)
      (fun key actions =>
         let handle :=
           match lookup_property key handlerPrototype with
           | Some p => prop_value p
           | None => HValue VUndefined
           end in
         if isNullOrUndefined handle then ret actions
         else if isGenerator (handle_prototype handle) then ret actions
         else addAction actions handlerName key handle handlerPrototype handler)
      actions in
  ret (handler, actions).

Definition Reducer : Type := value -> ReduxAction.t -> completion value.

Definition createReducerByHandler (handler : SagaHandler.t)
  : M (SagaHandler.t * Reducer) :=
  let defaultState := SagaHandler.default handler in
  let! built := build_actions handler in
  let (handler, actions) := built : SagaHandler.t * gmap string member in
  ret (handler, reducer actions defaultState).

(** [n] calls of [createReducerByHandler] on one handler, one after the
    other. *)
Fixpoint createReducerByHandler_times (n : nat) (handler : SagaHandler.t)
  : M SagaHandler.t :=
  match n with
  | O => ret handler
  | S n' =>
      let! hr := createReducerByHandler handler in
      createReducerByHandler_times n' hr.1
  end.

(** ** Sample handlers *)

Module Samples.

(** A class method: not enumerable, without a [prototype]. *)
Definition method (body : value -> value -> completion value) : property :=
  {| prop_value := HFunction {| call := body; prototype := NoPrototype |};
     enumerable := false |}.

(** A generator function under the regenerator runtime; calling it gives a
    generator object. *)
Definition generator_function : function :=
  {| call := fun _ _ => Normal (VObject []);
     prototype := PrototypeObject (Some "GeneratorFunctionPrototype") |}.

Definition class_constructor : property :=
  {| prop_value :=
       HFunction {| call := fun _ _ => Throw "TypeError: Class constructor cannot be invoked without 'new'";
                    prototype := PrototypeObject (Some "Object") |};
     enumerable := false |}.

Definition field (v : value) : property :=
  {| prop_value := HValue v; enumerable := true |}.

(** [class H { count = 0; setCount(state, payload) { return payload } }] *)
Definition counter : SagaHandler.t :=
  {| SagaHandler.constructor_name := "H";
     SagaHandler.own := [("count", field (VNumber 0))];
     SagaHandler.proto :=
       [("constructor", class_constructor);
        ("setCount", method (fun state payload => Normal payload))];
     SagaHandler.default := VNumber 0;
     SagaHandler.actionNames := None |}.

(** [class H { reset = USE_NEW_SATE }] *)
Definition resettable : SagaHandler.t :=
  {| SagaHandler.constructor_name := "H";
     SagaHandler.own := [("reset", field (VString USE_NEW_SATE))];
     SagaHandler.proto := [("constructor", class_constructor)];
     SagaHandler.default := VNull;
     SagaHandler.actionNames := None |}.

(** [class H { *fetchData() { ... } }] *)
Definition fetcher : SagaHandler.t :=
  {| SagaHandler.constructor_name := "H";
     SagaHandler.own := [];
     SagaHandler.proto :=
       [("constructor", class_constructor);
        ("fetchData",
         {| prop_value := HFunction generator_function; enumerable := false |})];
     SagaHandler.default := VNumber 0;
     SagaHandler.actionNames := None |}.

(** [class H { fetchData = function* () { ... } }]: the generator function
    is an own enumerable field. *)
Definition field_fetcher : SagaHandler.t :=
  {| SagaHandler.constructor_name := "H";
     SagaHandler.own :=
       [("fetchData",
         {| prop_value := HFunction generator_function; enumerable := true |})];
     SagaHandler.proto := [("constructor", class_constructor)];
     SagaHandler.default := VNumber 0;
     SagaHandler.actionNames := None |}.

(** [class H { setCount(state, payload) { return payload }
               count(state) { return state } }] *)
Definition getter_setter : SagaHandler.t :=
  {| SagaHandler.constructor_name := "H";
     SagaHandler.own := [];
     SagaHandler.proto :=
       [("constructor", class_constructor);
        ("setCount", method (fun state payload => Normal payload));
        ("count", method (fun state payload => Normal state))];
     SagaHandler.default := VNumber 0;
     SagaHandler.actionNames := None |}.

(** [class H { setCount(...) {...} setcount(...) {...} count(...) {...} }]:
    two setters with one derived getter name. *)
Definition colliding : SagaHandler.t :=
  {| SagaHandler.constructor_name := "H";
     SagaHandler.own := [];
     SagaHandler.proto :=
       [("constructor", class_constructor);
        ("setCount", method (fun state payload => Normal payload));
        ("setcount", method (fun state payload => Normal payload));
        ("count", method (fun state payload => Normal state))];
     SagaHandler.default := VNumber 0;
     SagaHandler.actionNames := None |}.

Definition no_store : World :=
  {| maps := []; DEFAULT_STORE := None; sagaHandlers := [] |}.

Definition with_store : World :=
  {| maps := [];
     DEFAULT_STORE := Some {| dispatched := [] |};
     sagaHandlers := [] |}.

(** The world after [createReducerByHandler getter_setter] and the
    registration of a store: the map of the handler holds the entry
    [count -> setCount]. *)
Definition classified : World :=
  {| maps := [{["count" := "setCount"]}];
     DEFAULT_STORE := Some {| dispatched := [] |};
     sagaHandlers := ["H"] |}.

Definition action (type : string) (payload : value) : ReduxAction.t :=
  {| ReduxAction.type := type; ReduxAction.payload := payload |}.

End Samples.

(** ** Notions the properties are stated with *)

(** The type of the action the proxy of [handler] dispatches for [key]. *)
Definition qualified (handler : SagaHandler.t) (key : string) : string :=
  SagaHandler.constructor_name handler +:+ "." +:+ key.

(** [n] is among the values of the map [target.actionNames]. *)
Definition is_action_name (target : SagaHandler.t) (w : World) (n : string)
  : Prop :=
  ∃ l m k, SagaHandler.actionNames target = Some l ∧
           maps w !! l = Some m ∧ m !! k = Some n.

(** The world after the registered store [store] has received [action] and
    nothing else has happened. *)
Definition after_dispatch (w : World) (store : Store) (action : ReduxAction.t)
  : World :=
  {| maps := maps w;
     DEFAULT_STORE := Some {| dispatched := dispatched store ++ [action] |};
     sagaHandlers := sagaHandlers w |}.

(** An entry [addAction] writes: under the getter name derived from it, a
    name that starts with "set". *)
Definition derived_entry (k v : string) : Prop :=
  JSString.startsWith v "set" = true ∧ k = convertFunctionNameByPrefix v.

(** [m'] is [m] after some calls of [set]: no key is lost, and an entry of
    [m'] is one of [m] or a derived one. *)
Definition extends (m m' : gmap string string) : Prop :=
  dom m ⊆ dom m' ∧
  ∀ k v, m' !! k = Some v → m !! k = Some v ∨ derived_entry k v.

(** [w'] is [w] but for the map at [l], which is extended: no map is created
    and every other object is as it was. *)
Definition grows (l : loc) (w w' : World) : Prop :=
  length (maps w') = length (maps w) ∧
  DEFAULT_STORE w' = DEFAULT_STORE w ∧
  sagaHandlers w' = sagaHandlers w ∧
  (∀ l', l' ≠ l → maps w' !! l' = maps w !! l') ∧
  (∀ m, maps w !! l = Some m → ∃ m', maps w' !! l = Some m' ∧ extends m m').

(** [key] is entered in the table with the value [v]: by the loop over the
    enumerable properties, or by the loop over the names of the prototype,
    which leaves out the constructor, null members and generators. *)
Definition registered (handler : SagaHandler.t) (key : string) (v : member)
  : Prop :=
  (key ∈ for_in handler ∧ key ≠ "actionNames" ∧ key ≠ "default" ∧
   v = get handler key) ∨
  (key ∈ getOwnPropertyNames (SagaHandler.proto handler) ∧
   key ≠ "constructor" ∧
   ∃ p, lookup_property key (SagaHandler.proto handler) = Some p ∧
        v = prop_value p ∧ isNullOrUndefined v = false ∧
        isGenerator (handle_prototype v) = false).

(** What holds of the table and of the world while the two loops run. *)
Definition loop_invariant (name : string) (handler : SagaHandler.t) (l : loc)
    (w0 : World) (actions : gmap string member) (w : World) : Prop :=
  grows l w0 w ∧
  ∀ t v, actions !! t = Some v →
         ∃ key, t = name +:+ "." +:+ key ∧ registered handler key v.

(** ** The table and the map as functions of the handler

    What the two loops of [createReducerByHandler] amount to, written
    without the world: the list of the calls of [addAction] in their order,
    the table they leave and what they do to the map of action names.  The
    properties below show that [build_actions] computes just these. *)

(** What the loop over the enumerable properties hands to [addAction] for
    [key], if anything. *)
Definition own_entry (handler : SagaHandler.t) (key : string) : option member :=
  if String.eqb key "actionNames" || String.eqb key "default" then None
  else Some (get handler key).

(** What the loop over the names of the prototype hands to [addAction] for
    [key], if anything. *)
Definition proto_entry (handler : SagaHandler.t) (key : string) : option member :=
  let handle :=
    match lookup_property key (SagaHandler.proto handler) with
    | Some p => prop_value p
    | None => HValue VUndefined
    end in
  if isNullOrUndefined handle then None
  else if isGenerator (handle_prototype handle) then None
  else Some handle.

Fixpoint entries (entry : string → option member) (keys : list string)
  : list (string * member) :=
  match keys with
  | [] => []
  | key :: keys' =>
      match entry key with
      | Some v => (key, v) :: entries entry keys'
      | None => entries entry keys'
      end
  end.

(** The calls of [addAction], in the order the loops make them. *)
Definition registrations (handler : SagaHandler.t) : list (string * member) :=
  entries (own_entry handler) (for_in handler) ++
  entries (proto_entry handler)
    (List.filter (fun key => negb (String.eqb key "constructor"))
       (getOwnPropertyNames (SagaHandler.proto handler))).

(** The assignments [actions[`${name}.${key}`] = handle] of a list of
    calls. *)
Definition register_all (name : string) (regs : list (string * member))
    (actions : gmap string member) : gmap string member :=
  foldl (fun actions kv => <[name +:+ "." +:+ kv.1 := kv.2]> actions) actions regs.

(** Whether [addAction] writes to the map of action names for [key]. *)
Definition writes_name (handlerPrototype : list (string * property))
    (key : string) : bool :=
  JSString.startsWith key "set" &&
  in_prototype (convertFunctionNameByPrefix key) handlerPrototype.

(** What one call of [addAction] for [key] does to the map. *)
Definition set_name (handlerPrototype : list (string * property))
    (m : gmap string string) (key : string) : gmap string string :=
  if writes_name handlerPrototype key
  then <[convertFunctionNameByPrefix key := key]> m
  else m.

(** What a list of calls of [addAction] does to the map. *)
Definition set_names (handlerPrototype : list (string * property))
    (regs : list (string * member)) (m : gmap string string)
  : gmap string string :=
  foldl (fun m kv => set_name handlerPrototype m kv.1) m regs.

(** The table [actions] of a handler. *)
Definition table (handler : SagaHandler.t) : gmap string member :=
  register_all (SagaHandler.constructor_name handler) (registrations handler) ∅.

(** The world with the map at [l] changed by [f]. *)
Definition with_map (l : loc) (f : gmap string string → gmap string string)
    (w : World) : World :=
  {| maps := alter f l (maps w);
     DEFAULT_STORE := DEFAULT_STORE w;
     sagaHandlers := sagaHandlers w |}.

(** The member the table holds for [key]: the one of the prototype, which is
    entered last, else the one the loop over the enumerable properties
    entered. *)
Definition table_entry (handler : SagaHandler.t) (key : string)
  : option member :=
  match (if String.eqb key "constructor" then None
         else proto_entry handler key) with
  | Some v => Some v
  | None =>
      if bool_decide (key ∈ for_in handler) then own_entry handler key
      else None
  end.

(** The last member a list of calls enters for [key]. *)
Definition last_entry (key : string) (regs : list (string * member))
  : option member :=
  foldl (fun r kv => if String.eqb kv.1 key then Some kv.2 else r) None regs.

(** The last setter name a list of calls writes under the getter name
    [k]. *)
Definition last_name (handlerPrototype : list (string * property))
    (k : string) (regs : list (string * member)) : option string :=
  foldl (fun r kv =>
           if writes_name handlerPrototype kv.1 &&
              String.eqb (convertFunctionNameByPrefix kv.1) k
           then Some kv.1 else r)
        None regs.

(** The location of the map of the handler after [createReducerByHandler],
    and the world in which the loops start. *)
Definition names_loc (handler : SagaHandler.t) (w : World) : loc :=
  match SagaHandler.actionNames handler with
  | Some l => l
  | None => length (maps w)
  end.

Definition initialised (handler : SagaHandler.t) (w : World) : World :=
  match SagaHandler.actionNames handler with
  | Some _ => w
  | None => with_new_map w
  end.

(** ** Proof steps *)

(** Decides the comparisons of characters left in the goal, one after the
    other. *)
Ltac compare_characters :=
  repeat (match goal with
          | |- context [Ascii.eqb ?a ?b] =>
              destruct (Ascii.eqb_spec a b); try subst; cbn [andb]
          end; try congruence).

(** Shows that a string is none of the strings of a list that is written
    out. *)
Ltac not_listed :=
  let H := fresh "H" in
  intros H; apply list_elem_of_In in H; cbn in H;
  repeat (destruct H as [H | H]; [discriminate H |]); exact H.

(** * Properties *)

(** ** The tag codec *)

Lemma includes_cons c s p :
  JSString.includes (String c s) p = false ->
  JSString.startsWith (String c s) p = false /\ JSString.includes s p = false.
Proof.
  intros H. change (JSString.includes (String c s) p)
    with (JSString.startsWith (String c s) p || JSString.includes s p) in H.
  apply orb_false_elim in H. exact H.
Qed.

(** No occurrence of the suffix starts inside [u] and ends inside a suffix
    appended to [u]: the suffix does not overlap itself. *)
Lemma suffix_no_overlap c u :
  JSString.startsWith (String c u) SAGA_ACTION_TYPE_SUFFIX = false ->
  JSString.startsWith (String c u +:+ SAGA_ACTION_TYPE_SUFFIX)
    SAGA_ACTION_TYPE_SUFFIX = false.
Proof.
  unfold SAGA_ACTION_TYPE_SUFFIX.
  destruct u as [|c2 [|c3 [|c4 [|c5 [|c6 u]]]]];
    cbv [JSString.startsWith String.append]; compare_characters.
Qed.

Lemma replace_appended_suffix t :
  JSString.includes t SAGA_ACTION_TYPE_SUFFIX = false ->
  JSString.replace (t +:+ SAGA_ACTION_TYPE_SUFFIX) SAGA_ACTION_TYPE_SUFFIX "" = t.
Proof.
  induction t as [|c t IH]; intros Hin.
  - reflexivity.
  - apply includes_cons in Hin as [Hp Hin].
    change (String c t +:+ SAGA_ACTION_TYPE_SUFFIX)
      with (String c (t +:+ SAGA_ACTION_TYPE_SUFFIX)).
    cbn [JSString.replace].
    change (String c (t +:+ SAGA_ACTION_TYPE_SUFFIX))
      with (String c t +:+ SAGA_ACTION_TYPE_SUFFIX) at 1.
    rewrite (suffix_no_overlap _ _ Hp).
    f_equal. apply IH, Hin.
Qed.


(** ** Computations *)

Lemma forEach_invariant {A S} (I : S → World → Prop) (l : list A)
    (body : A → S → M S) :
  (∀ x acc w, x ∈ l → I acc w →
     ∃ acc' w', body x acc w = Normal (acc', w') ∧ I acc' w') →
  ∀ acc w, I acc w →
     ∃ acc' w', forEach l body acc w = Normal (acc', w') ∧ I acc' w'.
Proof.
  induction l as [|x l IH]; intros Hbody acc w HI.
  - exists acc, w. split; [reflexivity | exact HI].
  - destruct (Hbody x acc w) as (acc1 & w1 & Hx & HI1); [left | exact HI |].
    destruct (IH (λ y a v Hy, Hbody y a v (list_elem_of_further _ _ _ Hy)) acc1 w1 HI1)
      as (acc2 & w2 & Hl & HI2).
    exists acc2, w2. split; [| exact HI2].
    cbn [forEach]. unfold bind. rewrite Hx. exact Hl.
Qed.

(** ** The store of maps *)

Lemma extends_refl m : extends m m.
Proof. split; [reflexivity | intros k v H; left; exact H]. Qed.

Lemma extends_trans m1 m2 m3 : extends m1 m2 → extends m2 m3 → extends m1 m3.
Proof.
  intros [D12 E12] [D23 E23]. split; [set_solver |].
  intros k v H3. destruct (E23 k v H3) as [H2 | Hd]; [| right; exact Hd].
  exact (E12 k v H2).
Qed.

Lemma extends_set m setter :
  JSString.startsWith setter "set" = true →
  extends m (<[convertFunctionNameByPrefix setter := setter]> m).
Proof.
  intros Hset. split.
  - rewrite dom_insert_L. set_solver.
  - intros k v H. destruct (decide (convertFunctionNameByPrefix setter = k)) as [<- | Hne].
    + rewrite lookup_insert_eq in H. injection H as <-. right. split; [exact Hset | reflexivity].
    + rewrite lookup_insert_ne in H by exact Hne. left. exact H.
Qed.

Lemma grows_refl l w : grows l w w.
Proof.
  repeat split; try reflexivity.
  intros m Hm. exists m. split; [exact Hm | apply extends_refl].
Qed.

Lemma grows_trans l w1 w2 w3 : grows l w1 w2 → grows l w2 w3 → grows l w1 w3.
Proof.
  intros (L12 & D12 & S12 & O12 & G12) (L23 & D23 & S23 & O23 & G23).
  repeat split; try congruence.
  - intros l' Hl'. rewrite O23, O12 by exact Hl'. reflexivity.
  - intros m1 Hm1. destruct (G12 m1 Hm1) as (m2 & Hm2 & E12).
    destruct (G23 m2 Hm2) as (m3 & Hm3 & E23).
    exists m3. split; [exact Hm3 | exact (extends_trans _ _ _ E12 E23)].
Qed.

Lemma Map_set_grows l setter w :
  JSString.startsWith setter "set" = true →
  ∃ w', Map_set (Some l) (convertFunctionNameByPrefix setter) setter w
          = Normal (tt, w') ∧ grows l w w'.
Proof.
  intros Hset. eexists. split; [reflexivity |].
  repeat split; cbn [maps DEFAULT_STORE sagaHandlers].
  - apply length_alter.
  - intros l' Hl'. apply list_lookup_alter_ne. congruence.
  - intros m Hm. eexists. split.
    + rewrite list_lookup_alter_eq, Hm. reflexivity.
    + apply extends_set, Hset.
Qed.

(** ** Building the table *)

Lemma addAction_spec actions name key v handlerPrototype handler l w :
  SagaHandler.actionNames handler = Some l →
  ∃ w', addAction actions name key v handlerPrototype handler w
          = Normal (<[name +:+ "." +:+ key := v]> actions, w') ∧
        grows l w w'.
Proof.
  intros Hl. unfold addAction.
  destruct (JSString.startsWith key "set") eqn:Hset;
    [destruct (in_prototype _ _) |];
    try (exists w; split; [reflexivity | apply grows_refl]).
  rewrite Hl. destruct (Map_set_grows l key w Hset) as (w' & Hw' & Hg).
  exists w'. split; [| exact Hg]. unfold bind. rewrite Hw'. reflexivity.
Qed.

Lemma loop_invariant_insert name handler l w0 actions w w' key v :
  loop_invariant name handler l w0 actions w →
  grows l w w' →
  registered handler key v →
  loop_invariant name handler l w0 (<[name +:+ "." +:+ key := v]> actions) w'.
Proof.
  intros [Hg Ht] Hg' Hr. split; [exact (grows_trans _ _ _ _ Hg Hg') |].
  intros t u Hu. destruct (decide (name +:+ "." +:+ key = t)) as [<- | Hne].
  - rewrite lookup_insert_eq in Hu. injection Hu as <-. exists key. auto.
  - rewrite lookup_insert_ne in Hu by exact Hne. exact (Ht t u Hu).
Qed.

Lemma own_loop_spec name handler l w0 actions0 w :
  SagaHandler.actionNames handler = Some l →
  loop_invariant name handler l w0 actions0 w →
  ∃ actions w',
    forEach (for_in handler)
      (fun key actions =>
         if String.eqb key "actionNames" || String.eqb key "default"
         then ret actions
         else addAction actions name key (get handler key)
                        (SagaHandler.proto handler) handler)
      actions0 w = Normal (actions, w') ∧
    loop_invariant name handler l w0 actions w'.
Proof.
  intros Hl. apply forEach_invariant. clear actions0 w.
  intros key actions w Hkey HI.
  destruct (String.eqb_spec key "actionNames") as [| Hn1]; cbn [orb];
    [exists actions, w; split; [reflexivity | exact HI] |].
  destruct (String.eqb_spec key "default") as [| Hn2];
    [exists actions, w; split; [reflexivity | exact HI] |].
  destruct (addAction_spec actions name key (get handler key)
              (SagaHandler.proto handler) handler l w Hl) as (w' & Hw' & Hg).
  eexists _, w'. split; [exact Hw' |].
  apply (loop_invariant_insert _ _ _ _ _ w); [exact HI | exact Hg |].
  left. auto.
Qed.

Lemma proto_loop_spec name handler l w0 actions0 w :
  SagaHandler.actionNames handler = Some l →
  loop_invariant name handler l w0 actions0 w →
  ∃ actions w',
    forEach
      (List.filter (fun key => negb (String.eqb key "constructor"))
         (getOwnPropertyNames (SagaHandler.proto handler)))
      (fun key actions =>
         let handle :=
           match lookup_property key (SagaHandler.proto handler) with
           | Some p => prop_value p
           | None => HValue VUndefined
           end in
         if isNullOrUndefined handle then ret actions
         else if isGenerator (handle_prototype handle) then ret actions
         else addAction actions name key handle
                        (SagaHandler.proto handler) handler)
      actions0 w = Normal (actions, w') ∧
    loop_invariant name handler l w0 actions w'.
Proof.
  intros Hl. apply forEach_invariant. clear actions0 w.
  intros key actions w Hkey HI. cbv zeta.
  apply list_elem_of_In, filter_In in Hkey as [Hkey Hc].
  apply list_elem_of_In in Hkey.
  apply negb_true_iff in Hc. apply String.eqb_neq in Hc.
  destruct (lookup_property key (SagaHandler.proto handler)) as [p|] eqn:Hp;
    [| exists actions, w; split; [reflexivity | exact HI]].
  destruct (isNullOrUndefined (prop_value p)) eqn:Hnull;
    [exists actions, w; split; [reflexivity | exact HI] |].
  destruct (isGenerator (handle_prototype (prop_value p))) eqn:Hgen;
    [exists actions, w; split; [reflexivity | exact HI] |].
  destruct (addAction_spec actions name key (prop_value p)
              (SagaHandler.proto handler) handler l w Hl) as (w' & Hw' & Hg).
  eexists _, w'. split; [exact Hw' |].
  apply (loop_invariant_insert _ _ _ _ _ w); [exact HI | exact Hg |].
  right. split; [exact Hkey |]. split; [exact Hc |]. exists p. auto.
Qed.

Lemma with_actionNames_id handler l :
  SagaHandler.actionNames handler = Some l → with_actionNames handler l = handler.
Proof. destruct handler. cbn. intros ->. reflexivity. Qed.

Lemma build_actions_spec handler w :
  ∃ l actions w',
    build_actions handler w = Normal ((with_actionNames handler l, actions), w') ∧
    ((SagaHandler.actionNames handler = Some l ∧ grows l w w') ∨
     (SagaHandler.actionNames handler = None ∧ l = length (maps w) ∧
      grows l (with_new_map w) w')) ∧
    (∀ t v, actions !! t = Some v →
            ∃ key, t = qualified handler key ∧ registered handler key v).
Proof.
  unfold build_actions. cbv zeta.
  destruct (SagaHandler.actionNames handler) as [l|] eqn:Hl.
  - assert (HI : loop_invariant (SagaHandler.constructor_name handler)
                   handler l w ∅ w).
    { split; [apply grows_refl | intros t v Ht; rewrite lookup_empty in Ht; discriminate]. }
    destruct (own_loop_spec _ _ _ _ _ _ Hl HI) as (a1 & w1 & E1 & I1).
    destruct (proto_loop_spec _ _ _ _ _ _ Hl I1) as (a2 & w2 & E2 & [G2 T2]).
    cbv zeta in E2.
    exists l, a2, w2. split; [| split; [left; auto | exact T2]].
    unfold bind at 1. cbn [ret]. unfold bind at 1. rewrite E1.
    unfold bind at 1. rewrite E2. rewrite (with_actionNames_id _ _ Hl). reflexivity.
  - set (l := length (maps w)). set (h' := with_actionNames handler l).
    assert (Hl' : SagaHandler.actionNames h' = Some l) by reflexivity.
    assert (HI : loop_invariant (SagaHandler.constructor_name handler)
                   h' l (with_new_map w) ∅ (with_new_map w)).
    { split; [apply grows_refl | intros t v Ht; rewrite lookup_empty in Ht; discriminate]. }
    destruct (own_loop_spec _ _ _ _ _ _ Hl' HI) as (a1 & w1 & E1 & I1).
    destruct (proto_loop_spec _ _ _ _ _ _ Hl' I1) as (a2 & w2 & E2 & [G2 T2]).
    cbv zeta in E2.
    exists l, a2, w2. split; [| split; [right; auto | exact T2]].
    unfold bind at 1. unfold bind at 1. unfold Map_new. cbn [ret]. fold l. fold h'.
    unfold bind at 1. rewrite E1.
    unfold bind at 1. rewrite E2. reflexivity.
Qed.

Lemma createReducerByHandler_spec handler w :
  ∃ l actions w',
    build_actions handler w = Normal ((with_actionNames handler l, actions), w') ∧
    createReducerByHandler handler w
      = Normal ((with_actionNames handler l,
                 reducer actions (SagaHandler.default handler)), w') ∧
    ((SagaHandler.actionNames handler = Some l ∧ grows l w w') ∨
     (SagaHandler.actionNames handler = None ∧ l = length (maps w) ∧
      grows l (with_new_map w) w')) ∧
    (∀ t v, actions !! t = Some v →
            ∃ key, t = qualified handler key ∧ registered handler key v).
Proof.
  destruct (build_actions_spec handler w) as (l & actions & w' & Hb & Hw & Ht).
  exists l, actions, w'. split; [exact Hb |]. split; [| split; assumption].
  unfold createReducerByHandler, bind. rewrite Hb. reflexivity.
Qed.

(** [createReducerByHandler] returns, whatever the handler and the world. *)
Lemma createReducerByHandler_returns handler w :
  ∃ handler' r w', createReducerByHandler handler w = Normal ((handler', r), w').
Proof.
  destruct (createReducerByHandler_spec handler w) as (l & actions & w' & _ & H & _).
  eauto.
Qed.

(** The reducer is the closure over the table that [build_actions] made. *)
Lemma createReducerByHandler_reducer handler w handler' actions w' :
  build_actions handler w = Normal ((handler', actions), w') →
  createReducerByHandler handler w
    = Normal ((handler', reducer actions (SagaHandler.default handler)), w').
Proof.
  intros Hb. unfold createReducerByHandler, bind. rewrite Hb. reflexivity.
Qed.

(** ** The reducer *)

Section Reducer.

Variables (actions : gmap string member) (defaultState : value).

Lemma reducer_saga state action :
  JSString.endsWith (ReduxAction.type action) SAGA_ACTION_TYPE_SUFFIX = true →
  reducer actions defaultState state action
    = Normal (default_parameter defaultState state).
Proof. intros H. unfold reducer. rewrite H. reflexivity. Qed.

Lemma reducer_absent state action :
  actions !! ReduxAction.type action = None →
  lookup_property (ReduxAction.type action) Object_prototype = None →
  reducer actions defaultState state action
    = Normal (default_parameter defaultState state).
Proof.
  intros H Hi. unfold reducer, actions_get. rewrite H, Hi.
  destruct (JSString.endsWith _ _); reflexivity.
Qed.

Lemma reducer_function state action f :
  JSString.endsWith (ReduxAction.type action) SAGA_ACTION_TYPE_SUFFIX = false →
  actions !! ReduxAction.type action = Some (HFunction f) →
  reducer actions defaultState state action
    = call f (default_parameter defaultState state) (ReduxAction.payload action).
Proof. intros Hs H. unfold reducer, actions_get. rewrite Hs, H. reflexivity. Qed.

Lemma reducer_use_new_state state action :
  JSString.endsWith (ReduxAction.type action) SAGA_ACTION_TYPE_SUFFIX = false →
  actions !! ReduxAction.type action = Some (HValue (VString USE_NEW_SATE)) →
  reducer actions defaultState state action
    = Normal (ReduxAction.payload action).
Proof. intros Hs H. unfold reducer, actions_get. rewrite Hs, H. reflexivity. Qed.

End Reducer.

Lemma lookup_property_None key ps :
  key ∉ ps.*1 → lookup_property key ps = None.
Proof.
  induction ps as [|[k p] ps IH]; [reflexivity |]. cbn.
  intros H. apply not_elem_of_cons in H as [Hne H].
  destruct (String.eqb_spec k key); [congruence | apply IH, H].
Qed.

(** The names of [Object.prototype] are the names of its properties. *)
Lemma not_inherited type :
  type ∉ Object_prototype_names →
  lookup_property type Object_prototype = None.
Proof. intros H. apply lookup_property_None. exact H. Qed.

Lemma includes_dot a b : JSString.includes (a +:+ "." +:+ b) "." = true.
Proof.
  induction a as [|c a IH]; [reflexivity |].
  change (String c a +:+ "." +:+ b) with (String c (a +:+ "." +:+ b)).
  change (JSString.includes (String c (a +:+ "." +:+ b)) ".")
    with (JSString.startsWith (String c (a +:+ "." +:+ b)) "."
          || JSString.includes (a +:+ "." +:+ b) ".").
  rewrite IH. apply orb_true_r.
Qed.

(** No name of [Object.prototype] has a dot: a qualified type names none of
    its members. *)
Lemma qualified_not_inherited handler key :
  qualified handler key ∉ Object_prototype_names.
Proof.
  assert (Hd := includes_dot (SagaHandler.constructor_name handler) key).
  fold (qualified handler key) in Hd. intros Hin.
  apply list_elem_of_In in Hin. cbn in Hin.
  repeat (destruct Hin as [Heq | Hin];
          [rewrite <- Heq in Hd; discriminate Hd |]).
  exact Hin.
Qed.

Lemma default_parameter_defined defaultState state :
  state ≠ VUndefined → default_parameter defaultState state = state.
Proof. destruct state; intros H; [contradiction H |..]; reflexivity. Qed.

Lemma append_inj_l s a b : s +:+ a = s +:+ b → a = b.
Proof.
  induction s as [|c s IH]; intros H; [exact H |].
  apply IH. change (String c (s +:+ a) = String c (s +:+ b)) in H.
  injection H as H. exact H.
Qed.

Lemma append_assoc a b c : (a +:+ b) +:+ c = a +:+ b +:+ c.
Proof.
  induction a as [|x a IH]; [reflexivity |].
  change (String x ((a +:+ b) +:+ c) = String x (a +:+ b +:+ c)).
  rewrite IH. reflexivity.
Qed.



(** ** The proxy *)

Lemma isPureAction_fold p values isPure :
  foldl (fun isPure item => if item_equals item p then true else isPure)
        isPure values
  = isPure || existsb (fun item => item_equals item p) values.
Proof.
  revert isPure. induction values as [|item values IH]; intros isPure; cbn.
  - rewrite orb_false_r. reflexivity.
  - rewrite IH. destruct (item_equals item p), isPure; reflexivity.
Qed.

Lemma Map_values_spec l w n :
  n ∈ Map_values l w ↔ ∃ m k, maps w !! l = Some m ∧ m !! k = Some n.
Proof.
  unfold Map_values. split.
  - destruct (maps w !! l) as [m|]; [| intros H; inversion H].
    intros H. apply list_elem_of_fmap in H as ([k v] & -> & H).
    apply elem_of_map_to_list in H. exists m, k. auto.
  - intros (m & k & -> & Hk). apply list_elem_of_fmap. exists (k, n).
    split; [reflexivity | apply elem_of_map_to_list, Hk].
Qed.

Lemma existsb_item_equals n values :
  existsb (fun item => item_equals item (KString n)) values = true ↔ n ∈ values.
Proof.
  rewrite existsb_exists. split.
  - intros (item & Hin & Heq). cbn in Heq. apply String.eqb_eq in Heq as ->.
    apply list_elem_of_In, Hin.
  - intros Hin. exists n. split; [apply list_elem_of_In, Hin | apply String.eqb_refl].
Qed.

(** What the forwarding function of a string key does when a store is
    registered: one action is handed to the store, and it is returned. *)
Lemma proxyHandler_get_string proxy target n params w store :
  DEFAULT_STORE w = Some store →
  ∃ isPureAction : bool,
    (isPureAction = true ↔
     pureAction proxy = true ∨ is_action_name target w n) ∧
    let action :=
      {| ReduxAction.type :=
           if isPureAction then handlerName proxy +:+ "." +:+ n
           else getSagaTypeNameByReducer (handlerName proxy +:+ "." +:+ n);
         ReduxAction.payload := nth 0 params VUndefined |} in
    proxyHandler_get proxy target (KString n) params w
      = Normal (action, after_dispatch w store action).
Proof.
  intros Hstore. unfold proxyHandler_get, proxyDispatchBySaga.
  cbn [qualified_name]. rewrite Hstore. cbn [Store_dispatch].
  eexists. split; [| reflexivity].
  destruct (pureAction proxy) eqn:Hpure.
  - cbn [negb]. destruct (SagaHandler.actionNames target); split; auto.
  - cbn [negb]. destruct (SagaHandler.actionNames target) as [l|] eqn:Hl.
    + rewrite isPureAction_fold. cbn [orb].
      rewrite existsb_item_equals, Map_values_spec. split.
      * intros (m & k & Hm & Hk). right. exists l, m, k. auto.
      * intros [| (l' & m & k & Hl' & Hm & Hk)]; [discriminate |].
        rewrite Hl in Hl'. injection Hl' as <-. eauto.
    + split; [discriminate |].
      intros [| (l' & m & k & Hl' & _)]; [discriminate |].
      rewrite Hl in Hl'. discriminate.
Qed.

(** X13. Without a registered store the forwarding function of every key
    raises; no action is dispatched. *)
Lemma proxyHandler_get_no_store proxy target p params w :
  DEFAULT_STORE w = None →
  ∃ e, proxyHandler_get proxy target p params w = Throw e.
Proof.
  intros Hstore. unfold proxyHandler_get, proxyDispatchBySaga.
  destruct p; cbn [qualified_name]; rewrite ?Hstore; eauto.
Qed.

Lemma registerStoreByProxy_registers store w :
  ∃ w', registerStoreByProxy store w = Normal (tt, w') ∧
        DEFAULT_STORE w' = Some store ∧ maps w' = maps w.
Proof. eexists. split; [reflexivity |]. split; reflexivity. Qed.

Lemma createReduxHandler_spec handler pureByDefault w :
  createReduxHandler handler pureByDefault w
    = Normal ({| handlerName := SagaHandler.constructor_name handler;
                 pureAction := pureByDefault |},
              {| maps := maps w;
                 DEFAULT_STORE := DEFAULT_STORE w;
                 sagaHandlers :=
                   sagaHandlers w ++ [SagaHandler.constructor_name handler] |}).
Proof. reflexivity. Qed.

(** * The claims *)

(** ** C6 and C7: the tag codec *)

(** C6. For every tag [t] in which the suffix "__SAGA" does not occur,
    [getReducerTypeNameBySaga (getSagaTypeNameByReducer t) = t]. *)
Theorem getReducerTypeNameBySaga_getSagaTypeNameByReducer t :
  JSString.includes t SAGA_ACTION_TYPE_SUFFIX = false →
  getReducerTypeNameBySaga (getSagaTypeNameByReducer t) = t.
Proof. apply replace_appended_suffix. Qed.

Lemma getReducerTypeNameBySaga_getSagaTypeNameByReducer_witness :
  getReducerTypeNameBySaga (getSagaTypeNameByReducer "H.setCount") = "H.setCount".
Proof.
  apply (getReducerTypeNameBySaga_getSagaTypeNameByReducer "H.setCount").
  reflexivity.
Defined.

(** X3. [getReducerTypeNameBySaga] returns a type in which "__SAGA" does not
    occur as it is. *)
Lemma getReducerTypeNameBySaga_absent t :
  JSString.includes t SAGA_ACTION_TYPE_SUFFIX = false →
  getReducerTypeNameBySaga t = t.
Proof.
  unfold getReducerTypeNameBySaga.
  induction t as [|c t IH]; intros Hin; [reflexivity |].
  apply includes_cons in Hin as [Hp Hin].
  cbn [JSString.replace]. rewrite Hp, (IH Hin). reflexivity.
Qed.

(** C7. [getReducerTypeNameBySaga] is to remove the suffix from the end of a
    tag and to alter nothing else.  It removes the first occurrence of
    "__SAGA" instead: from "a__SAGAb", which does not end with the suffix,
    it makes "ab", and of "A__SAGA.b__SAGA", which ends with it, it keeps
    the suffix and removes the occurrence inside. *)
Theorem getReducerTypeNameBySaga_removes_first_occurrence :
  JSString.endsWith "a__SAGAb" SAGA_ACTION_TYPE_SUFFIX = false ∧
  getReducerTypeNameBySaga "a__SAGAb" = "ab" ∧
  JSString.endsWith "A__SAGA.b__SAGA" SAGA_ACTION_TYPE_SUFFIX = true ∧
  getReducerTypeNameBySaga "A__SAGA.b__SAGA" = "A.b__SAGA" ∧
  getReducerTypeNameBySaga (getSagaTypeNameByReducer "A__SAGA.b") = "A.b__SAGA".
Proof. repeat split; reflexivity. Qed.

(** ** C2 to C5: the reducer *)

(** C2. When the type of the action does not end with the suffix and the
    table holds a function [f] under it, the reducer returns
    [f(state, action.payload)], where [state] is the state parameter: the
    argument [s], or the default state of the handler when [s] is
    undefined.  For the handler [class H { count = 0; setCount(state,
    payload) { return payload } }] the action [{type: "H.setCount",
    payload: 5}] gives the state 5, and [{type: "H.unknown", payload: 1}]
    the state it was given. *)
Theorem reducer_calls_registered_function :
  (∀ handler w handler' actions w' s action f,
     build_actions handler w = Normal ((handler', actions), w') →
     JSString.endsWith (ReduxAction.type action) SAGA_ACTION_TYPE_SUFFIX = false →
     actions !! ReduxAction.type action = Some (HFunction f) →
     ∃ r, createReducerByHandler handler w = Normal ((handler', r), w') ∧
          r s action
            = call f (default_parameter (SagaHandler.default handler) s)
                     (ReduxAction.payload action) ∧
          (s ≠ VUndefined →
           r s action = call f s (ReduxAction.payload action))) ∧
  (∀ w s,
     ∃ handler' r w',
       createReducerByHandler Samples.counter w = Normal ((handler', r), w') ∧
       r s (Samples.action "H.setCount" (VNumber 5)) = Normal (VNumber 5) ∧
       r s (Samples.action "H.unknown" (VNumber 1))
         = Normal (default_parameter (VNumber 0) s)).
Proof.
  split.
  - intros handler w handler' actions w' s action f Hb Hs Hf.
    eexists. split; [apply createReducerByHandler_reducer, Hb |].
    assert (E := reducer_function actions (SagaHandler.default handler)
                   s action f Hs Hf).
    split; [exact E |]. intros Hdef. rewrite E.
    rewrite (default_parameter_defined _ _ Hdef). reflexivity.
  - intros w s. eexists _, _, _. split; [reflexivity |].
    split; reflexivity.
Qed.

Lemma reducer_calls_registered_function_witness :
  ∃ r, createReducerByHandler Samples.counter Samples.no_store
         = Normal ((with_actionNames Samples.counter 0, r),
                   with_new_map Samples.no_store) ∧
       r (VNumber 1) (Samples.action "H.setCount" (VNumber 5))
         = Normal (VNumber 5).
Proof.
  destruct (proj1 reducer_calls_registered_function
              Samples.counter Samples.no_store
              (with_actionNames Samples.counter 0)
              (<["H.setCount" :=
                   HFunction {| call := fun _ payload => Normal payload;
                                prototype := NoPrototype |}]>
                 (<["H.count" := HValue (VNumber 0)]> ∅))
              (with_new_map Samples.no_store)
              (VNumber 1) (Samples.action "H.setCount" (VNumber 5))
              {| call := fun _ payload => Normal payload;
                 prototype := NoPrototype |}
              eq_refl eq_refl eq_refl)
    as (r & E & _ & H).
  exists r. split; [exact E |]. apply H. discriminate.
Defined.

(** C3. When the type of the action does not end with the suffix and the
    table holds [USE_NEW_SATE] under it, the reducer returns the payload of
    the action and drops the state.  With [reset = USE_NEW_SATE] in the
    handler [H], the action [{type: "H.reset", payload: {x: 1}}] gives the
    state [{x: 1}]. *)
Theorem reducer_uses_new_state :
  (∀ handler w handler' actions w' state action,
     build_actions handler w = Normal ((handler', actions), w') →
     JSString.endsWith (ReduxAction.type action) SAGA_ACTION_TYPE_SUFFIX = false →
     actions !! ReduxAction.type action = Some (HValue (VString USE_NEW_SATE)) →
     ∃ r, createReducerByHandler handler w = Normal ((handler', r), w') ∧
          r state action = Normal (ReduxAction.payload action)) ∧
  (∀ w state,
     ∃ handler' r w',
       createReducerByHandler Samples.resettable w = Normal ((handler', r), w') ∧
       r state (Samples.action "H.reset" (VObject [("x", VNumber 1)]))
         = Normal (VObject [("x", VNumber 1)])).
Proof.
  split.
  - intros handler w handler' actions w' state action Hb Hs Hf.
    eexists. split; [apply createReducerByHandler_reducer, Hb |].
    apply reducer_use_new_state; assumption.
  - intros w state. eexists _, _, _. split; reflexivity.
Qed.

Lemma reducer_uses_new_state_witness :
  ∃ r, createReducerByHandler Samples.resettable Samples.no_store
         = Normal ((with_actionNames Samples.resettable 0, r),
                   with_new_map Samples.no_store) ∧
       r (VNumber 7) (Samples.action "H.reset" (VObject [("x", VNumber 1)]))
         = Normal (VObject [("x", VNumber 1)]).
Proof.
  apply (proj1 reducer_uses_new_state
           Samples.resettable Samples.no_store _
           (<["H.reset" := HValue (VString USE_NEW_SATE)]> ∅)
           _ (VNumber 7) (Samples.action "H.reset" (VObject [("x", VNumber 1)])));
    reflexivity.
Defined.

(** C4. For an action whose type ends with the suffix "__SAGA" the reducer
    returns its state parameter as it is, whatever the table holds: the
    argument [s], or the default state of the handler when [s] is
    undefined. *)
Theorem reducer_ignores_saga_actions handler w s action :
  JSString.endsWith (ReduxAction.type action) SAGA_ACTION_TYPE_SUFFIX = true →
  ∃ handler' r w',
    createReducerByHandler handler w = Normal ((handler', r), w') ∧
    r s action = Normal (default_parameter (SagaHandler.default handler) s) ∧
    (s ≠ VUndefined → r s action = Normal s).
Proof.
  intros Hs.
  destruct (createReducerByHandler_spec handler w) as (l & actions & w' & _ & E & _).
  eexists _, _, _. split; [exact E |].
  assert (Er := reducer_saga actions (SagaHandler.default handler) s action Hs).
  split; [exact Er |]. intros Hdef. rewrite Er.
  rewrite (default_parameter_defined _ _ Hdef). reflexivity.
Qed.

Lemma reducer_ignores_saga_actions_witness :
  ∃ handler' r w',
    createReducerByHandler Samples.counter Samples.no_store
      = Normal ((handler', r), w') ∧
    r (VNumber 3) (Samples.action "H.setCount__SAGA" (VNumber 5))
      = Normal (VNumber 3).
Proof.
  destruct (reducer_ignores_saga_actions Samples.counter Samples.no_store
              (VNumber 3) (Samples.action "H.setCount__SAGA" (VNumber 5))
              eq_refl)
    as (handler' & r & w' & E & _ & H).
  exists handler', r, w'. split; [exact E |]. apply H. discriminate.
Defined.

(** C5. An action whose type is not in the table is to leave the state as it
    is, without raising, as the comment of the reducer says.  The table is
    the plain object [actions = {}], and [actions[type]] also finds what it
    inherits from [Object.prototype].  For every handler, the types
    "hasOwnProperty" and "toString" are not in the table and do not end with
    the suffix, yet [{type: "hasOwnProperty"}] makes the reducer raise, the
    inherited method being called with [this] undefined, and
    [{type: "toString"}] makes it return the string "[object Undefined]" as
    the new state. *)
Theorem reducer_calls_inherited_members handler w s payload :
  ∃ handler' actions r w',
    build_actions handler w = Normal ((handler', actions), w') ∧
    createReducerByHandler handler w = Normal ((handler', r), w') ∧
    actions !! "hasOwnProperty" = None ∧
    JSString.endsWith "hasOwnProperty" SAGA_ACTION_TYPE_SUFFIX = false ∧
    r s (Samples.action "hasOwnProperty" payload)
      = Throw "TypeError: Cannot convert undefined or null to object" ∧
    actions !! "toString" = None ∧
    JSString.endsWith "toString" SAGA_ACTION_TYPE_SUFFIX = false ∧
    r s (Samples.action "toString" payload)
      = Normal (VString "[object Undefined]").
Proof.
  destruct (createReducerByHandler_spec handler w)
    as (l & actions & w' & Hb & E & _ & Ht).
  assert (Habsent : ∀ t, t ∈ Object_prototype_names → actions !! t = None).
  { intros t Hin. destruct (actions !! t) as [v|] eqn:Hv; [| reflexivity].
    destruct (Ht _ _ Hv) as (key & -> & _).
    destruct (qualified_not_inherited handler key Hin). }
  assert (H1 : actions !! "hasOwnProperty" = None)
    by (apply Habsent, list_elem_of_In; cbn; tauto).
  assert (H2 : actions !! "toString" = None)
    by (apply Habsent, list_elem_of_In; cbn; tauto).
  eexists _, _, _, _. split; [exact Hb |]. split; [exact E |].
  split; [exact H1 |]. split; [reflexivity |]. split.
  - unfold reducer, actions_get. cbn [ReduxAction.type Samples.action].
    rewrite H1. reflexivity.
  - split; [exact H2 |]. split; [reflexivity |].
    unfold reducer, actions_get. cbn [ReduxAction.type Samples.action].
    rewrite H2. reflexivity.
Qed.

(** X16. For an action whose type does not end with the suffix, is not in
    the table and is not the name of a member of [Object.prototype], the
    reducer returns its state parameter as it is (the argument [s], or the
    default state of the handler when [s] is undefined); it does not
    raise. *)
Theorem reducer_ignores_unknown_actions
    handler w handler' actions w' s action :
  build_actions handler w = Normal ((handler', actions), w') →
  JSString.endsWith (ReduxAction.type action) SAGA_ACTION_TYPE_SUFFIX = false →
  actions !! ReduxAction.type action = None →
  ReduxAction.type action ∉ Object_prototype_names →
  ∃ r, createReducerByHandler handler w = Normal ((handler', r), w') ∧
       r s action = Normal (default_parameter (SagaHandler.default handler) s) ∧
       (s ≠ VUndefined → r s action = Normal s).
Proof.
  intros Hb _ Hnone Hi.
  eexists. split; [apply createReducerByHandler_reducer, Hb |].
  assert (Er := reducer_absent actions (SagaHandler.default handler)
                  s action Hnone (not_inherited _ Hi)).
  split; [exact Er |]. intros Hdef. rewrite Er.
  rewrite (default_parameter_defined _ _ Hdef). reflexivity.
Qed.

Lemma reducer_ignores_unknown_actions_witness :
  ∃ r, createReducerByHandler Samples.counter Samples.no_store
         = Normal ((with_actionNames Samples.counter 0, r),
                   with_new_map Samples.no_store) ∧
       r (VNumber 3) (Samples.action "Other.setName" (VString "x"))
         = Normal (VNumber 3).
Proof.
  destruct (reducer_ignores_unknown_actions
              Samples.counter Samples.no_store
              (with_actionNames Samples.counter 0)
              (<["H.setCount" :=
                   HFunction {| call := fun _ payload => Normal payload;
                                prototype := NoPrototype |}]>
                 (<["H.count" := HValue (VNumber 0)]> ∅))
              (with_new_map Samples.no_store)
              (VNumber 3) (Samples.action "Other.setName" (VString "x"))
              eq_refl eq_refl eq_refl ltac:(not_listed))
    as (r & E & _ & H).
  exists r. split; [exact E |]. apply H. discriminate.
Defined.

(** ** C8: generators *)

(** C8. A generator-shaped member is to be left out of the table, as the
    loop over the names of the prototype does.  The loop over the
    enumerable properties makes no such test: a generator function held in
    an own enumerable field is entered in the table, and the reducer calls
    it.  For [class H { fetchData = function* () { ... } }] the action
    [{type: "H.fetchData", payload: null}] on the state 1 gives the
    generator object the call returns as the new state. *)
Lemma own_generator_is_registered :
  lookup_property "fetchData" (SagaHandler.own Samples.field_fetcher)
    = Some {| prop_value := HFunction Samples.generator_function;
              enumerable := true |} ∧
  isGenerator (prototype Samples.generator_function) = true ∧
  ∃ handler' actions r w',
    build_actions Samples.field_fetcher Samples.no_store
      = Normal ((handler', actions), w') ∧
    createReducerByHandler Samples.field_fetcher Samples.no_store
      = Normal ((handler', r), w') ∧
    actions !! qualified Samples.field_fetcher "fetchData"
      = Some (HFunction Samples.generator_function) ∧
    r (VNumber 1)
      (Samples.action (qualified Samples.field_fetcher "fetchData") VNull)
      = Normal (VObject []) ∧
    r (VNumber 1)
      (Samples.action (qualified Samples.field_fetcher "fetchData") VNull)
      ≠ Normal (VNumber 1).
Proof.
  split; [reflexivity |]. split; [reflexivity |].
  exists (with_actionNames Samples.field_fetcher 0),
         (<["H.fetchData" := HFunction Samples.generator_function]> ∅),
         (reducer (<["H.fetchData" := HFunction Samples.generator_function]> ∅)
                  (VNumber 0)),
         (with_new_map Samples.no_store).
  split; [reflexivity |]. split; [reflexivity |].
  split; [reflexivity |]. split; [reflexivity | discriminate].
Qed.



(** ** C9: the map of action names *)

(** C9, as it is stated, fails: the map is never replaced, but the calls do
    not only add entries to it, since [set] replaces the value under a key
    that is there.  A map that holds [count -> legacy] holds
    [count -> setCount] after [createReducerByHandler], and the entry it had
    is gone.  In one call on a handler with the setters [setCount] and
    [setcount], both written under [count], the map ends with
    [count -> setcount] alone. *)
Lemma actionNames_entry_is_overwritten :
  (∃ handler' r w' m',
     createReducerByHandler (with_actionNames Samples.getter_setter 0)
       {| maps := [{["count" := "legacy"]}];
          DEFAULT_STORE := None; sagaHandlers := [] |}
     = Normal ((handler', r), w') ∧
     SagaHandler.actionNames handler' = Some 0 ∧
     maps w' !! 0 = Some m' ∧
     ({["count" := "legacy"]} : gmap string string) !! "count" = Some "legacy" ∧
     m' !! "count" = Some "setCount" ∧
     m' !! "count" ≠ Some "legacy") ∧
  (∃ handler' r w' m',
     createReducerByHandler Samples.colliding Samples.no_store
     = Normal ((handler', r), w') ∧
     SagaHandler.actionNames handler' = Some 0 ∧
     maps w' !! 0 = Some m' ∧
     writes_name (SagaHandler.proto Samples.colliding) "setCount" = true ∧
     convertFunctionNameByPrefix "setCount" = "count" ∧
     m' !! "count" = Some "setcount" ∧
     m' !! "count" ≠ Some "setCount").
Proof.
  split.
  - exists (with_actionNames Samples.getter_setter 0),
           (reducer (table Samples.getter_setter) (VNumber 0)),
           {| maps := [{["count" := "setCount"]}];
              DEFAULT_STORE := None; sagaHandlers := [] |},
           {["count" := "setCount"]}.
    split; [reflexivity |].
    split; [reflexivity |]. split; [reflexivity |].
    split; [reflexivity |]. split; [reflexivity | discriminate].
  - exists (with_actionNames Samples.colliding 0),
           (reducer (table Samples.colliding) (VNumber 0)),
           {| maps := [{["count" := "setcount"]}];
              DEFAULT_STORE := None; sagaHandlers := [] |},
           {["count" := "setcount"]}.
    split; [reflexivity |].
    split; [reflexivity |]. split; [reflexivity |].
    split; [reflexivity |]. split; [reflexivity |].
    split; [reflexivity | discriminate].
Qed.

(** C9, amended.  Over any number of calls of [createReducerByHandler] on a
    handler, [actionNames] is set at most once, by the first call and only
    when it was null or undefined: a handler that has a map keeps that very
    map and no map is created, and a handler that has none gets one new map
    and keeps it.  The calls only [set] entries, from a derived getter name
    to the setter name, in that map: no key is lost, every entry is one
    that was there or such an entry, and nothing else in the world
    changes. *)
Theorem actionNames_is_set_once_and_kept n handler w :
  ∃ handler' w',
    createReducerByHandler_times n handler w = Normal (handler', w') ∧
    match SagaHandler.actionNames handler with
    | Some l =>
        SagaHandler.actionNames handler' = Some l ∧ grows l w w'
    | None =>
        (n = 0 ∧ handler' = handler ∧ w' = w) ∨
        (0 < n ∧
         SagaHandler.actionNames handler' = Some (length (maps w)) ∧
         grows (length (maps w)) (with_new_map w) w')
    end.
Proof.
  revert handler w. induction n as [|n IH]; intros handler w.
  - exists handler, w. split; [reflexivity |].
    destruct (SagaHandler.actionNames handler) as [l|] eqn:Hl.
    + split; [reflexivity | apply grows_refl].
    + left. auto.
  - destruct (createReducerByHandler_spec handler w)
      as (l & actions & w1 & _ & E & Hw & _).
    destruct (IH (with_actionNames handler l) w1) as (handler' & w' & E' & Hl' & G').
    exists handler', w'. split.
    + cbn [createReducerByHandler_times]. unfold bind. rewrite E. exact E'.
    + destruct Hw as [[Hl G] | (Hl & -> & G)]; rewrite Hl.
      * split; [exact Hl' | exact (grows_trans _ _ _ _ G G')].
      * right. split; [lia |]. split; [exact Hl' |].
        exact (grows_trans _ _ _ _ G G').
Qed.

(** Two calls on [class H { setCount(...) {...} count(...) {...} }]: the map
    made by the first call is the one the handler has after the second. *)
Lemma actionNames_is_set_once_and_kept_witness :
  ∃ handler' w',
    createReducerByHandler_times 2 Samples.getter_setter Samples.no_store
      = Normal (handler', w') ∧
    SagaHandler.actionNames handler' = Some 0 ∧
    length (maps w') = 1.
Proof.
  destruct (actionNames_is_set_once_and_kept 2 Samples.getter_setter Samples.no_store)
    as (handler' & w' & E & H).
  exists handler', w'. split; [exact E |].
  cbn in H. destruct H as [(H0 & _) | (_ & Hl & (Hlen & _))]; [discriminate |].
  split; [exact Hl | exact Hlen].
Defined.

(** ** C1 and C10: the proxy *)

(** C1. For a proxy made by [createReduxHandler handler pureByDefault] and a
    registered store, calling the operation [n] of the proxy hands exactly
    one action to the store.  Its payload is the first argument.  Its type
    is "<name>.n", with nothing after it, when [pureByDefault] holds or [n]
    is among the values of the map [actionNames] of the handler; otherwise
    it is "<name>.n__SAGA", which is what [getSagaTypeNameByReducer] makes
    of "<name>.n".  [target] is the handler as it is when the call is
    made. *)
Theorem proxy_dispatches_by_classification
    handler pureByDefault w0 proxy w1 target n params w store :
  createReduxHandler handler pureByDefault w0 = Normal (proxy, w1) →
  DEFAULT_STORE w = Some store →
  ∃ action,
    proxyHandler_get proxy target (KString n) params w
      = Normal (action, after_dispatch w store action) ∧
    ReduxAction.payload action = nth 0 params VUndefined ∧
    (pureByDefault = true ∨ is_action_name target w n →
     ReduxAction.type action
       = SagaHandler.constructor_name handler +:+ "." +:+ n) ∧
    (¬ (pureByDefault = true ∨ is_action_name target w n) →
     ReduxAction.type action
       = SagaHandler.constructor_name handler +:+ "." +:+ n +:+ "__SAGA" ∧
     ReduxAction.type action
       = getSagaTypeNameByReducer
           (SagaHandler.constructor_name handler +:+ "." +:+ n)).
Proof.
  rewrite createReduxHandler_spec. intros Hc Hstore. injection Hc as <- _.
  destruct (proxyHandler_get_string
              {| handlerName := SagaHandler.constructor_name handler;
                 pureAction := pureByDefault |} target n params w store Hstore)
    as (isPure & Hiff & E).
  cbn [handlerName pureAction] in *.
  eexists. split; [exact E |]. split; [reflexivity |].
  cbn [ReduxAction.type]. split.
  - intros H. apply Hiff in H as ->. reflexivity.
  - intros H. destruct isPure; [exfalso; apply H, Hiff; reflexivity |].
    split; [| reflexivity].
    unfold getSagaTypeNameByReducer, SAGA_ACTION_TYPE_SUFFIX.
    rewrite !append_assoc. reflexivity.
Qed.

(** With the map [count -> setCount], calling [setCount] dispatches
    "H.setCount" and calling [count] dispatches "H.count__SAGA". *)
Lemma proxy_dispatches_by_classification_witness :
  (∃ action,
     proxyHandler_get {| handlerName := "H"; pureAction := false |}
       (with_actionNames Samples.getter_setter 0) (KString "setCount")
       [VNumber 5] Samples.classified
       = Normal (action,
                 after_dispatch Samples.classified {| dispatched := [] |} action) ∧
     ReduxAction.payload action = VNumber 5 ∧
     ReduxAction.type action = "H.setCount") ∧
  (∃ action,
     proxyHandler_get {| handlerName := "H"; pureAction := false |}
       (with_actionNames Samples.getter_setter 0) (KString "count")
       [VNumber 7] Samples.classified
       = Normal (action,
                 after_dispatch Samples.classified {| dispatched := [] |} action) ∧
     ReduxAction.payload action = VNumber 7 ∧
     ReduxAction.type action = "H.count__SAGA").
Proof.
  split.
  - destruct (proxy_dispatches_by_classification
                Samples.getter_setter false Samples.with_store
                {| handlerName := "H"; pureAction := false |} _
                (with_actionNames Samples.getter_setter 0) "setCount"
                [VNumber 5] Samples.classified {| dispatched := [] |}
                eq_refl eq_refl)
      as (action & E & Hp & Ht & _).
    exists action. split; [exact E |]. split; [exact Hp |].
    apply Ht. right. exists 0, {["count" := "setCount"]}, "count".
    split; [reflexivity |]. split; reflexivity.
  - destruct (proxy_dispatches_by_classification
                Samples.getter_setter false Samples.with_store
                {| handlerName := "H"; pureAction := false |} _
                (with_actionNames Samples.getter_setter 0) "count"
                [VNumber 7] Samples.classified {| dispatched := [] |}
                eq_refl eq_refl)
      as (action & E & Hp & _ & Ht).
    exists action. split; [exact E |]. split; [exact Hp |].
    apply Ht. intros [Hpure | (l & m & k & Hl & Hm & Hk)]; [discriminate |].
    injection Hl as <-. injection Hm as <-.
    apply lookup_singleton_Some in Hk as [_ Hk]. discriminate.
Defined.

(** C10, as it is stated, fails for a key that is a symbol: the property
    access gives a forwarding function, but calling it raises when the type
    of the action is built, and no action reaches the store. *)
Lemma symbol_key_raises :
  ∃ proxy w1,
    createReduxHandler Samples.counter false Samples.with_store
      = Normal (proxy, w1) ∧
    DEFAULT_STORE w1 = Some {| dispatched := [] |} ∧
    proxyHandler_get proxy Samples.counter (KSymbol "Symbol.toPrimitive")
      [VString "default"] w1
      = Throw "TypeError: Cannot convert a Symbol value to a string".
Proof. eexists _, _. split; [reflexivity |]. split; reflexivity. Qed.

(** C10, amended.  For a proxy made by [createReduxHandler] and every key
    that is a string, an operation of the handler or not, the property
    access gives a forwarding function; with a registered store, calling it
    hands one action to the store, of type "<name>.<p>" or that type with
    the suffix "__SAGA", with the first argument as payload.  The members of
    the handler are not called: the outcome is the same for every target
    with the same [actionNames], whatever its members are. *)
Theorem proxy_forwards_every_string_key
    handler pureByDefault w0 proxy w1 target p params w store :
  createReduxHandler handler pureByDefault w0 = Normal (proxy, w1) →
  DEFAULT_STORE w = Some store →
  ∃ action,
    proxyHandler_get proxy target (KString p) params w
      = Normal (action, after_dispatch w store action) ∧
    (ReduxAction.type action = qualified handler p ∨
     ReduxAction.type action
       = getSagaTypeNameByReducer (qualified handler p)) ∧
    ReduxAction.payload action = nth 0 params VUndefined ∧
    ∀ target',
      SagaHandler.actionNames target' = SagaHandler.actionNames target →
      proxyHandler_get proxy target' (KString p) params w
        = proxyHandler_get proxy target (KString p) params w.
Proof.
  rewrite createReduxHandler_spec. intros Hc Hstore. injection Hc as <- _.
  destruct (proxyHandler_get_string
              {| handlerName := SagaHandler.constructor_name handler;
                 pureAction := pureByDefault |} target p params w store Hstore)
    as (isPure & _ & E).
  cbn [handlerName pureAction] in *.
  eexists. split; [exact E |]. cbn [ReduxAction.type ReduxAction.payload].
  split; [destruct isPure; auto |]. split; [reflexivity |].
  intros target' Hsame. unfold proxyHandler_get. rewrite Hsame. reflexivity.
Qed.

Lemma proxy_forwards_every_string_key_witness :
  ∃ action,
    proxyHandler_get {| handlerName := "H"; pureAction := false |}
      Samples.counter (KString "then") [] Samples.with_store
      = Normal (action,
                after_dispatch Samples.with_store {| dispatched := [] |} action) ∧
    ReduxAction.type action = "H.then__SAGA" ∧
    ReduxAction.payload action = VUndefined.
Proof.
  destruct (proxy_forwards_every_string_key
              Samples.counter false Samples.with_store
              {| handlerName := "H"; pureAction := false |} _
              Samples.counter "then" [] Samples.with_store
              {| dispatched := [] |} eq_refl eq_refl)
    as (action & E & Ht & Hp & _).
  exists action. split; [exact E |]. split; [| exact Hp].
  cbv in E. injection E as <-. reflexivity.
Defined.

(** * Further properties *)

(** ** The tag codec *)

Lemma startsWith_drop s p :
  JSString.startsWith s p = true → s = p +:+ JSString.drop (String.length p) s.
Proof.
  revert s. induction p as [|a p IH]; intros s H; [reflexivity |].
  destruct s as [|b s]; [discriminate |]. cbn [JSString.startsWith] in H.
  apply andb_true_iff in H as [Hab Hp]. apply Ascii.eqb_eq in Hab as ->.
  change (String b s = String b (p +:+ JSString.drop (String.length p) s)).
  f_equal. apply IH, Hp.
Qed.

Lemma startsWith_append s x p :
  JSString.startsWith s p = true → JSString.startsWith (s +:+ x) p = true.
Proof.
  revert s. induction p as [|a p IH]; intros s H; [reflexivity |].
  destruct s as [|b s]; [discriminate |]. cbn [JSString.startsWith] in H.
  apply andb_true_iff in H as [Hab Hp].
  change (String b s +:+ x) with (String b (s +:+ x)).
  cbn [JSString.startsWith]. rewrite Hab, (IH _ Hp). reflexivity.
Qed.

Lemma drop_length_append s x : JSString.drop (String.length s) (s +:+ x) = x.
Proof. induction s as [|c s IH]; [reflexivity | exact IH]. Qed.

Lemma length_append s x :
  String.length (s +:+ x) = String.length s + String.length x.
Proof.
  induction s as [|c s IH]; [reflexivity |].
  change (S (String.length (s +:+ x)) = S (String.length s + String.length x)).
  rewrite IH. reflexivity.
Qed.

Lemma endsWith_append s p : JSString.endsWith (s +:+ p) p = true.
Proof.
  unfold JSString.endsWith. rewrite length_append.
  replace (String.length p <=? String.length s + String.length p)%nat with true
    by (symmetry; apply Nat.leb_le; lia).
  replace (String.length s + String.length p - String.length p)
    with (String.length s) by lia.
  rewrite drop_length_append. apply String.eqb_refl.
Qed.

(** X1. [getSagaTypeNameByReducer] and the test of the reducer agree: the
    type it makes ends with the suffix, whatever the type it is given. *)
Theorem getSagaTypeNameByReducer_endsWith type :
  JSString.endsWith (getSagaTypeNameByReducer type) SAGA_ACTION_TYPE_SUFFIX
  = true.
Proof. apply endsWith_append. Qed.

(** X2. When "__SAGA" occurs in a type, [getReducerTypeNameBySaga] takes out
    one occurrence and keeps the rest: the type is [a ++ "__SAGA" ++ b],
    the result is [a ++ b], and "__SAGA" does not occur in [a]. *)
Theorem getReducerTypeNameBySaga_removes_one_occurrence type :
  JSString.includes type SAGA_ACTION_TYPE_SUFFIX = true →
  ∃ a b, type = a +:+ SAGA_ACTION_TYPE_SUFFIX +:+ b ∧
         getReducerTypeNameBySaga type = a +:+ b ∧
         JSString.includes a SAGA_ACTION_TYPE_SUFFIX = false.
Proof.
  unfold getReducerTypeNameBySaga.
  induction type as [|c t IH]; intros Hin; [discriminate |].
  change (JSString.includes (String c t) SAGA_ACTION_TYPE_SUFFIX)
    with (JSString.startsWith (String c t) SAGA_ACTION_TYPE_SUFFIX
          || JSString.includes t SAGA_ACTION_TYPE_SUFFIX) in Hin.
  destruct (JSString.startsWith (String c t) SAGA_ACTION_TYPE_SUFFIX) eqn:Hp.
  - exists "", (JSString.drop (String.length SAGA_ACTION_TYPE_SUFFIX) (String c t)).
    split; [exact (startsWith_drop _ _ Hp) |]. split; [| reflexivity].
    cbn [JSString.replace]. rewrite Hp. reflexivity.
  - cbn [orb] in Hin. destruct (IH Hin) as (a & b & Ht & Hr & Ha).
    exists (String c a), b. split; [rewrite Ht at 1; reflexivity |]. split.
    + cbn [JSString.replace]. rewrite Hp, Hr. reflexivity.
    + change (JSString.includes (String c a) SAGA_ACTION_TYPE_SUFFIX)
        with (JSString.startsWith (String c a) SAGA_ACTION_TYPE_SUFFIX
              || JSString.includes a SAGA_ACTION_TYPE_SUFFIX).
      rewrite Ha, orb_false_r.
      destruct (JSString.startsWith (String c a) SAGA_ACTION_TYPE_SUFFIX) eqn:Hpa;
        [| reflexivity].
      apply (startsWith_append _ (SAGA_ACTION_TYPE_SUFFIX +:+ b)) in Hpa.
      change (String c a +:+ SAGA_ACTION_TYPE_SUFFIX +:+ b)
        with (String c (a +:+ SAGA_ACTION_TYPE_SUFFIX +:+ b)) in Hpa.
      rewrite <- Ht in Hpa. congruence.
Qed.

Lemma getReducerTypeNameBySaga_removes_one_occurrence_witness :
  ∃ a b, "A__SAGA.b__SAGA" = a +:+ SAGA_ACTION_TYPE_SUFFIX +:+ b ∧
         getReducerTypeNameBySaga "A__SAGA.b__SAGA" = a +:+ b ∧
         JSString.includes a SAGA_ACTION_TYPE_SUFFIX = false.
Proof.
  apply (getReducerTypeNameBySaga_removes_one_occurrence "A__SAGA.b__SAGA").
  reflexivity.
Defined.

(** ** The loops as folds *)

Lemma with_map_id l f w : (∀ m, f m = m) → with_map l f w = w.
Proof.
  intros Hf. destruct w as [ms st hs]. unfold with_map. cbn.
  f_equal. apply list_alter_id, Hf.
Qed.

Lemma with_map_compose l f g h w :
  (∀ m, h m = g (f m)) → with_map l g (with_map l f w) = with_map l h w.
Proof.
  intros Hh. unfold with_map. cbn. f_equal.
  rewrite list_alter_alter_eq. apply list_alter_ext; [| reflexivity].
  intros m _. symmetry. apply Hh.
Qed.

Lemma addAction_eq actions name key v handler l w :
  SagaHandler.actionNames handler = Some l →
  addAction actions name key v (SagaHandler.proto handler) handler w
  = Normal (<[name +:+ "." +:+ key := v]> actions,
            with_map l (fun m => set_name (SagaHandler.proto handler) m key) w).
Proof.
  intros Hl. unfold addAction, set_name, writes_name.
  destruct (JSString.startsWith key "set"); cbn [andb];
    [destruct (in_prototype _ _) |].
  - rewrite Hl. reflexivity.
  - rewrite with_map_id by reflexivity. reflexivity.
  - rewrite with_map_id by reflexivity. reflexivity.
Qed.

Lemma forEach_entries name handler l entry keys
    (body : string → gmap string member → M (gmap string member)) :
  SagaHandler.actionNames handler = Some l →
  (∀ key actions w,
     body key actions w
     = match entry key with
       | Some v => addAction actions name key v (SagaHandler.proto handler)
                             handler w
       | None => Normal (actions, w)
       end) →
  ∀ actions w,
    forEach keys body actions w
    = Normal (register_all name (entries entry keys) actions,
              with_map l (set_names (SagaHandler.proto handler)
                            (entries entry keys)) w).
Proof.
  intros Hl Hbody. induction keys as [|key keys IH]; intros actions w.
  - cbn [forEach entries]. rewrite with_map_id by reflexivity. reflexivity.
  - cbn [forEach entries]. unfold bind. rewrite Hbody.
    destruct (entry key) as [v|].
    + rewrite (addAction_eq _ _ _ _ _ _ _ Hl), IH. f_equal. f_equal.
      apply with_map_compose. reflexivity.
    + apply IH.
Qed.

Lemma register_all_app name regs1 regs2 actions :
  register_all name (regs1 ++ regs2) actions
  = register_all name regs2 (register_all name regs1 actions).
Proof. apply foldl_app. Qed.

Lemma set_names_app handlerPrototype regs1 regs2 m :
  set_names handlerPrototype (regs1 ++ regs2) m
  = set_names handlerPrototype regs2 (set_names handlerPrototype regs1 m).
Proof. apply foldl_app. Qed.

(** The loops of [createReducerByHandler] compute the table and the map that
    the folds describe, and touch nothing else. *)
Lemma build_actions_eq handler w :
  build_actions handler w
  = Normal ((with_actionNames handler (names_loc handler w), table handler),
            with_map (names_loc handler w)
              (set_names (SagaHandler.proto handler) (registrations handler))
              (initialised handler w)).
Proof.
  set (l := names_loc handler w). set (h' := with_actionNames handler l).
  assert (Hl' : SagaHandler.actionNames h' = Some l) by reflexivity.
  assert (Hstart : ∀ k : SagaHandler.t → M (SagaHandler.t * gmap string member),
            bind match SagaHandler.actionNames handler with
                 | Some _ => ret handler
                 | None => let! names := Map_new in
                           ret (with_actionNames handler names)
                 end k w
            = k h' (initialised handler w)).
  { intros k. unfold bind, initialised, h', l, names_loc.
    destruct (SagaHandler.actionNames handler) as [l0|] eqn:Hl; [| reflexivity].
    cbn [ret]. rewrite (with_actionNames_id _ _ Hl). reflexivity. }
  unfold build_actions. cbv zeta. rewrite Hstart. unfold bind.
  rewrite (forEach_entries (SagaHandler.constructor_name handler) h' l
             (own_entry h') (for_in h') _ Hl').
  2:{ intros key actions w0. unfold own_entry.
      destruct (String.eqb key "actionNames" || String.eqb key "default");
        reflexivity. }
  rewrite (forEach_entries (SagaHandler.constructor_name handler) h' l
             (proto_entry h') _ _ Hl').
  2:{ intros key actions w0. unfold proto_entry. cbv zeta.
      destruct (isNullOrUndefined _); [reflexivity |].
      destruct (isGenerator _); reflexivity. }
  unfold ret. f_equal. f_equal.
  - f_equal. unfold table, registrations. rewrite register_all_app. reflexivity.
  - rewrite (with_map_compose _ _ _
               (set_names (SagaHandler.proto handler) (registrations handler)));
      [reflexivity |].
    intros m. unfold registrations. rewrite set_names_app. reflexivity.
Qed.

Lemma createReducerByHandler_eq handler w :
  createReducerByHandler handler w
  = Normal ((with_actionNames handler (names_loc handler w),
             reducer (table handler) (SagaHandler.default handler)),
            with_map (names_loc handler w)
              (set_names (SagaHandler.proto handler) (registrations handler))
              (initialised handler w)).
Proof. apply createReducerByHandler_reducer, build_actions_eq. Qed.

(** ** What the table holds *)

Lemma entries_elem entry keys key v :
  (key, v) ∈ entries entry keys ↔ key ∈ keys ∧ entry key = Some v.
Proof.
  induction keys as [|key0 keys IH]; cbn [entries].
  - split; [intros H; inversion H | intros [H _]; inversion H].
  - destruct (entry key0) as [v0|] eqn:E0.
    + rewrite !elem_of_cons, IH. split.
      * intros [H | [H1 H2]]; [injection H as -> ->; auto | auto].
      * intros [[-> | H1] H2]; [left; congruence | right; auto].
    + rewrite elem_of_cons, IH. split; [intros [H1 H2]; auto |].
      intros [[-> | H1] H2]; [congruence | auto].
Qed.

Lemma last_entry_snoc key regs kv :
  last_entry key (regs ++ [kv])
  = if String.eqb kv.1 key then Some kv.2 else last_entry key regs.
Proof. unfold last_entry. rewrite foldl_snoc. reflexivity. Qed.

Lemma register_all_snoc name regs kv actions :
  register_all name (regs ++ [kv]) actions
  = <[name +:+ "." +:+ kv.1 := kv.2]> (register_all name regs actions).
Proof. unfold register_all. rewrite foldl_snoc. reflexivity. Qed.

Lemma register_all_lookup name regs actions key :
  register_all name regs actions !! (name +:+ "." +:+ key)
  = match last_entry key regs with
    | Some v => Some v
    | None => actions !! (name +:+ "." +:+ key)
    end.
Proof.
  induction regs as [|kv regs IH] using rev_ind; [reflexivity |].
  rewrite register_all_snoc, last_entry_snoc.
  destruct (String.eqb_spec kv.1 key) as [-> | Hne].
  - apply lookup_insert_eq.
  - rewrite lookup_insert_ne; [exact IH |].
    intros H. apply append_inj_l, (append_inj_l ".") in H. contradiction.
Qed.

Lemma register_all_keys name regs actions t v :
  register_all name regs actions !! t = Some v →
  actions !! t = Some v ∨ ∃ key, t = name +:+ "." +:+ key ∧ (key, v) ∈ regs.
Proof.
  induction regs as [|kv regs IH] using rev_ind; [left; assumption |].
  rewrite register_all_snoc. intros H.
  destruct (decide (name +:+ "." +:+ kv.1 = t)) as [<- | Hne].
  - rewrite lookup_insert_eq in H. injection H as <-. right. exists kv.1.
    split; [reflexivity |]. apply elem_of_app. right. destruct kv. left.
  - rewrite lookup_insert_ne in H by exact Hne.
    destruct (IH H) as [| (key & -> & Hin)]; [left; assumption |].
    right. exists key. split; [reflexivity | apply elem_of_app; left; exact Hin].
Qed.

Lemma last_entry_app key regs1 regs2 :
  last_entry key (regs1 ++ regs2)
  = match last_entry key regs2 with
    | Some v => Some v
    | None => last_entry key regs1
    end.
Proof.
  induction regs2 as [|kv regs2 IH] using rev_ind.
  - rewrite app_nil_r. reflexivity.
  - rewrite app_assoc, !last_entry_snoc, IH.
    destruct (String.eqb kv.1 key); reflexivity.
Qed.

Lemma last_entry_entries key entry keys :
  last_entry key (entries entry keys)
  = if bool_decide (key ∈ keys) then entry key else None.
Proof.
  induction keys as [|key0 keys IH] using rev_ind; [reflexivity |].
  assert (Hsnoc : entries entry (keys ++ [key0])
                  = (entries entry keys ++ match entry key0 with
                                           | Some v => [(key0, v)]
                                           | None => []
                                           end)%list).
  { clear IH. induction keys as [|k keys IHk]; cbn [entries app].
    - destruct (entry key0); reflexivity.
    - rewrite IHk. destruct (entry k); reflexivity. }
  rewrite Hsnoc, last_entry_app, IH.
  destruct (decide (key0 = key)) as [-> | Hne].
  - rewrite (bool_decide_eq_true_2 (key ∈ (keys ++ [key])%list))
      by (apply elem_of_app; right; left).
    destruct (entry key) as [v|]; cbn.
    + unfold last_entry. cbn. rewrite String.eqb_refl. reflexivity.
    + destruct (bool_decide (key ∈ keys)); reflexivity.
  - assert (Hiff : key ∈ (keys ++ [key0])%list ↔ key ∈ keys).
    { rewrite elem_of_app, list_elem_of_singleton.
      split; [intros [H | H]; [exact H | congruence] | intros H; left; exact H]. }
    rewrite (bool_decide_ext _ _ Hiff).
    destruct (entry key0) as [v0|]; [| reflexivity].
    unfold last_entry at 1. cbn.
    destruct (String.eqb_spec key0 key); [contradiction | reflexivity].
Qed.

Lemma table_lookup handler key :
  table handler !! qualified handler key = table_entry handler key.
Proof.
  unfold table, qualified, registrations, table_entry.
  rewrite register_all_lookup, last_entry_app, !last_entry_entries, lookup_empty.
  assert (Hp : (if bool_decide
                     (key ∈ List.filter
                              (fun key => negb (String.eqb key "constructor"))
                              (getOwnPropertyNames (SagaHandler.proto handler)))
                then proto_entry handler key else None)
               = (if String.eqb key "constructor" then None
                  else proto_entry handler key)).
  { destruct (String.eqb_spec key "constructor") as [-> | Hc].
    - rewrite bool_decide_eq_false_2; [reflexivity |].
      intros H. apply list_elem_of_In, filter_In in H as [_ H]. discriminate.
    - case_bool_decide as Hin; [reflexivity |].
      unfold proto_entry. rewrite lookup_property_None; [reflexivity |].
      intros H. apply Hin, list_elem_of_In, filter_In.
      split; [apply list_elem_of_In, H |].
      apply negb_true_iff, String.eqb_neq, Hc. }
  rewrite Hp.
  destruct (if String.eqb key "constructor" then None else proto_entry handler key);
    [reflexivity |].
  destruct (bool_decide (key ∈ for_in handler)); [| reflexivity].
  destruct (own_entry handler key); reflexivity.
Qed.

Lemma table_keys handler t v :
  table handler !! t = Some v →
  ∃ key, t = qualified handler key ∧ (key, v) ∈ registrations handler.
Proof.
  intros H. apply register_all_keys in H as [H | H]; [| exact H].
  rewrite lookup_empty in H. discriminate.
Qed.

(** X4. A member of the prototype that is neither null nor undefined nor a
    generator, under a name other than "constructor", is in the table under
    "<name>.<key>", also when the handler has an own property of that name:
    the loop over the prototype runs last. *)
Theorem prototype_member_is_registered handler w key p :
  lookup_property key (SagaHandler.proto handler) = Some p →
  isNullOrUndefined (prop_value p) = false →
  isGenerator (handle_prototype (prop_value p)) = false →
  key ≠ "constructor" →
  ∃ handler' actions w',
    build_actions handler w = Normal ((handler', actions), w') ∧
    actions !! qualified handler key = Some (prop_value p).
Proof.
  intros Hp Hnull Hgen Hc. eexists _, _, _. split; [apply build_actions_eq |].
  rewrite table_lookup. unfold table_entry, proto_entry.
  apply String.eqb_neq in Hc. rewrite Hc, Hp. cbv zeta.
  rewrite Hnull, Hgen. reflexivity.
Qed.

(** In [class H { count = 0; setCount(...) {...}; count(...) {...} }] the
    method [count] of the prototype is the entry of "H.count", not the
    field. *)
Lemma prototype_member_is_registered_witness :
  ∃ handler' actions w',
    build_actions
      {| SagaHandler.constructor_name := "H";
         SagaHandler.own := [("count", Samples.field (VNumber 0))];
         SagaHandler.proto := SagaHandler.proto Samples.getter_setter;
         SagaHandler.default := VNumber 0;
         SagaHandler.actionNames := None |}
      Samples.no_store
    = Normal ((handler', actions), w') ∧
    actions !! "H.count"
    = Some (prop_value (Samples.method (fun state payload => Normal state))).
Proof.
  apply (prototype_member_is_registered
           {| SagaHandler.constructor_name := "H";
              SagaHandler.own := [("count", Samples.field (VNumber 0))];
              SagaHandler.proto := SagaHandler.proto Samples.getter_setter;
              SagaHandler.default := VNumber 0;
              SagaHandler.actionNames := None |}
           Samples.no_store "count"
           (Samples.method (fun state payload => Normal state)));
    [reflexivity | reflexivity | reflexivity | discriminate].
Defined.

(** X5. A property that the loop over the enumerable properties visits,
    other than [actionNames] and [default], is in the table under
    "<name>.<key>" with the value [handler[key]], whatever that value is,
    when the loop over the prototype enters nothing under that name. *)
Theorem enumerable_property_is_registered handler w key :
  key ∈ for_in handler →
  key ≠ "actionNames" →
  key ≠ "default" →
  key = "constructor" ∨ proto_entry handler key = None →
  ∃ handler' actions w',
    build_actions handler w = Normal ((handler', actions), w') ∧
    actions !! qualified handler key = Some (get handler key).
Proof.
  intros Hin Ha Hd Hproto. eexists _, _, _. split; [apply build_actions_eq |].
  rewrite table_lookup. unfold table_entry.
  replace (if String.eqb key "constructor" then None else proto_entry handler key)
    with (@None member).
  - rewrite (bool_decide_eq_true_2 _ Hin). unfold own_entry.
    apply String.eqb_neq in Ha, Hd. rewrite Ha, Hd. reflexivity.
  - destruct Hproto as [-> | ->]; [reflexivity |].
    destruct (String.eqb key "constructor"); reflexivity.
Qed.

Lemma enumerable_property_is_registered_witness :
  ∃ handler' actions w',
    build_actions Samples.counter Samples.no_store
    = Normal ((handler', actions), w') ∧
    actions !! "H.count" = Some (HValue (VNumber 0)).
Proof.
  apply (enumerable_property_is_registered Samples.counter Samples.no_store
           "count").
  - cbn. left.
  - discriminate.
  - discriminate.
  - right. reflexivity.
Defined.

(** X6. A name of the prototype whose member is null or undefined, and
    which the loop over the enumerable properties does not visit, is left
    out of the table; the reducer returns its state parameter for
    "<name>.<key>". *)
Theorem null_member_is_skipped handler w key p s payload :
  lookup_property key (SagaHandler.proto handler) = Some p →
  isNullOrUndefined (prop_value p) = true →
  key ∉ for_in handler →
  ∃ handler' actions r w',
    build_actions handler w = Normal ((handler', actions), w') ∧
    createReducerByHandler handler w = Normal ((handler', r), w') ∧
    actions !! qualified handler key = None ∧
    r s {| ReduxAction.type := qualified handler key;
           ReduxAction.payload := payload |}
    = Normal (default_parameter (SagaHandler.default handler) s).
Proof.
  intros Hp Hnull Hfor.
  assert (Hnone : table handler !! qualified handler key = None).
  { rewrite table_lookup. unfold table_entry, proto_entry.
    rewrite Hp. cbv zeta. rewrite Hnull.
    rewrite (bool_decide_eq_false_2 _ Hfor).
    destruct (String.eqb key "constructor"); reflexivity. }
  eexists _, _, _, _. split; [apply build_actions_eq |].
  split; [apply createReducerByHandler_eq |]. split; [exact Hnone |].
  apply reducer_absent; [exact Hnone |].
  apply not_inherited, qualified_not_inherited.
Qed.

Lemma null_member_is_skipped_witness :
  ∃ handler' actions r w',
    build_actions
      {| SagaHandler.constructor_name := "H";
         SagaHandler.own := [];
         SagaHandler.proto :=
           [("constructor", Samples.class_constructor);
            ("pending", {| prop_value := HValue VNull; enumerable := false |})];
         SagaHandler.default := VNumber 0;
         SagaHandler.actionNames := None |}
      Samples.no_store
    = Normal ((handler', actions), w') ∧
    createReducerByHandler
      {| SagaHandler.constructor_name := "H";
         SagaHandler.own := [];
         SagaHandler.proto :=
           [("constructor", Samples.class_constructor);
            ("pending", {| prop_value := HValue VNull; enumerable := false |})];
         SagaHandler.default := VNumber 0;
         SagaHandler.actionNames := None |}
      Samples.no_store
    = Normal ((handler', r), w') ∧
    actions !! "H.pending" = None ∧
    r (VNumber 4) (Samples.action "H.pending" (VNumber 1)) = Normal (VNumber 4).
Proof.
  apply (null_member_is_skipped
           {| SagaHandler.constructor_name := "H";
              SagaHandler.own := [];
              SagaHandler.proto :=
                [("constructor", Samples.class_constructor);
                 ("pending",
                  {| prop_value := HValue VNull; enumerable := false |})];
              SagaHandler.default := VNumber 0;
              SagaHandler.actionNames := None |}
           Samples.no_store "pending"
           {| prop_value := HValue VNull; enumerable := false |}
           (VNumber 4) (VNumber 1));
    [reflexivity | reflexivity | apply not_elem_of_nil].
Defined.

Lemma startsWith_own_prefix p x : JSString.startsWith (p +:+ x) p = true.
Proof.
  induction p as [|c p IH]; [reflexivity |].
  change (String c p +:+ x) with (String c (p +:+ x)).
  cbn [JSString.startsWith]. rewrite Ascii.eqb_refl, IH. reflexivity.
Qed.

(** X7. The reducer of a handler leaves alone every action whose type does
    not start with "<name>." and is not the name of a member of
    [Object.prototype]: it returns its state parameter, so the actions of
    the other handlers of the store do not reach the members of this
    one. *)
Theorem reducer_ignores_foreign_types handler w s action :
  JSString.startsWith (ReduxAction.type action)
    (SagaHandler.constructor_name handler +:+ ".") = false →
  ReduxAction.type action ∉ Object_prototype_names →
  ∃ handler' r w',
    createReducerByHandler handler w = Normal ((handler', r), w') ∧
    r s action = Normal (default_parameter (SagaHandler.default handler) s).
Proof.
  intros Hforeign Hi. eexists _, _, _. split; [apply createReducerByHandler_eq |].
  apply reducer_absent; [| exact (not_inherited _ Hi)].
  destruct (table handler !! ReduxAction.type action) as [v|] eqn:Hv;
    [| reflexivity].
  apply table_keys in Hv as (key & Ht & _). rewrite Ht in Hforeign.
  unfold qualified in Hforeign.
  rewrite <- append_assoc, startsWith_own_prefix in Hforeign. discriminate.
Qed.

Lemma reducer_ignores_foreign_types_witness :
  ∃ handler' r w',
    createReducerByHandler Samples.counter Samples.no_store
    = Normal ((handler', r), w') ∧
    r (VNumber 2) (Samples.action "Hx.setCount" (VNumber 9)) = Normal (VNumber 2).
Proof.
  apply (reducer_ignores_foreign_types Samples.counter Samples.no_store
           (VNumber 2) (Samples.action "Hx.setCount" (VNumber 9))).
  - reflexivity.
  - not_listed.
Defined.

(** X8. When the type of the action does not end with the suffix and the
    table holds under it a value that is not a function, not undefined and
    not [USE_NEW_SATE], the reducer returns that value as the new state and
    drops both the state and the payload. *)
Theorem reducer_returns_constant_member
    handler w handler' actions w' s action v :
  build_actions handler w = Normal ((handler', actions), w') →
  JSString.endsWith (ReduxAction.type action) SAGA_ACTION_TYPE_SUFFIX = false →
  actions !! ReduxAction.type action = Some (HValue v) →
  v ≠ VUndefined →
  v ≠ VString USE_NEW_SATE →
  ∃ r, createReducerByHandler handler w = Normal ((handler', r), w') ∧
       r s action = Normal v.
Proof.
  intros Hb Hs Hv Hu Hn.
  eexists. split; [apply createReducerByHandler_reducer, Hb |].
  unfold reducer, actions_get. rewrite Hs, Hv.
  destruct v as [| | b | n | str | fields | prim |]; try reflexivity;
    [contradiction |].
  assert (Hstr : String.eqb str USE_NEW_SATE = false).
  { apply String.eqb_neq. intros ->. contradiction. }
  cbn [isUndefined strict_equals_string].
  rewrite Hstr. reflexivity.
Qed.

Lemma reducer_returns_constant_member_witness :
  ∃ r, createReducerByHandler Samples.counter Samples.no_store
       = Normal ((with_actionNames Samples.counter 0, r),
                 with_new_map Samples.no_store) ∧
       r (VNumber 8) (Samples.action "H.count" (VNumber 5)) = Normal (VNumber 0).
Proof.
  apply (reducer_returns_constant_member
           Samples.counter Samples.no_store
           (with_actionNames Samples.counter 0)
           (<["H.setCount" :=
                HFunction {| call := fun _ payload => Normal payload;
                             prototype := NoPrototype |}]>
              (<["H.count" := HValue (VNumber 0)]> ∅))
           (with_new_map Samples.no_store)
           (VNumber 8) (Samples.action "H.count" (VNumber 5)) (VNumber 0));
    [reflexivity | reflexivity | reflexivity | discriminate | discriminate].
Defined.

(** ** What the map of action names holds *)

Lemma set_names_snoc handlerPrototype regs kv m :
  set_names handlerPrototype (regs ++ [kv]) m
  = set_name handlerPrototype (set_names handlerPrototype regs m) kv.1.
Proof. unfold set_names. rewrite foldl_snoc. reflexivity. Qed.

Lemma last_name_snoc handlerPrototype k regs kv :
  last_name handlerPrototype k (regs ++ [kv])
  = if writes_name handlerPrototype kv.1 &&
       String.eqb (convertFunctionNameByPrefix kv.1) k
    then Some kv.1 else last_name handlerPrototype k regs.
Proof. unfold last_name. rewrite foldl_snoc. reflexivity. Qed.

Lemma set_names_lookup handlerPrototype regs m k :
  set_names handlerPrototype regs m !! k
  = match last_name handlerPrototype k regs with
    | Some v => Some v
    | None => m !! k
    end.
Proof.
  induction regs as [|kv regs IH] using rev_ind; [reflexivity |].
  rewrite set_names_snoc, last_name_snoc. unfold set_name.
  destruct (writes_name handlerPrototype kv.1); cbn [andb]; [| exact IH].
  destruct (String.eqb_spec (convertFunctionNameByPrefix kv.1) k) as [-> | Hne].
  - apply lookup_insert_eq.
  - rewrite lookup_insert_ne by exact Hne. exact IH.
Qed.

Lemma set_names_idempotent handlerPrototype regs m :
  set_names handlerPrototype regs (set_names handlerPrototype regs m)
  = set_names handlerPrototype regs m.
Proof.
  apply map_eq. intros k. rewrite !set_names_lookup.
  destruct (last_name handlerPrototype k regs); reflexivity.
Qed.

Lemma last_name_Some handlerPrototype k regs v :
  last_name handlerPrototype k regs = Some v →
  writes_name handlerPrototype v = true ∧
  convertFunctionNameByPrefix v = k ∧
  ∃ x, (v, x) ∈ regs.
Proof.
  induction regs as [|kv regs IH] using rev_ind; [discriminate |].
  rewrite last_name_snoc.
  destruct (writes_name handlerPrototype kv.1) eqn:Hw; cbn [andb].
  - destruct (String.eqb_spec (convertFunctionNameByPrefix kv.1) k) as [Hk | Hk].
    + intros H. injection H as <-. split; [exact Hw |]. split; [exact Hk |].
      exists kv.2. apply elem_of_app. right. destruct kv. left.
    + intros H. destruct (IH H) as (H1 & H2 & x & Hx).
      split; [exact H1 |]. split; [exact H2 |].
      exists x. apply elem_of_app. left. exact Hx.
  - intros H. destruct (IH H) as (H1 & H2 & x & Hx).
    split; [exact H1 |]. split; [exact H2 |].
    exists x. apply elem_of_app. left. exact Hx.
Qed.

Lemma last_name_is_Some handlerPrototype regs key x :
  (key, x) ∈ regs →
  writes_name handlerPrototype key = true →
  is_Some (last_name handlerPrototype (convertFunctionNameByPrefix key) regs).
Proof.
  intros Hin Hw. induction regs as [|kv regs IH] using rev_ind;
    [inversion Hin |].
  rewrite last_name_snoc.
  destruct (writes_name handlerPrototype kv.1 &&
            String.eqb (convertFunctionNameByPrefix kv.1)
                       (convertFunctionNameByPrefix key)) eqn:E; [eauto |].
  apply IH. apply elem_of_app in Hin as [Hin | Hin]; [exact Hin |].
  apply list_elem_of_singleton in Hin. subst kv. cbn [fst] in E.
  rewrite Hw, String.eqb_refl in E. discriminate.
Qed.

Lemma last_entry_is_Some key x regs :
  (key, x) ∈ regs → is_Some (last_entry key regs).
Proof.
  intros Hin. induction regs as [|kv regs IH] using rev_ind;
    [inversion Hin |].
  rewrite last_entry_snoc.
  destruct (String.eqb_spec kv.1 key) as [| Hne]; [eauto |].
  apply IH. apply elem_of_app in Hin as [Hin | Hin]; [exact Hin |].
  apply list_elem_of_singleton in Hin. subst kv. contradiction.
Qed.

Lemma lookup_property_elem key ps p :
  lookup_property key ps = Some p → key ∈ ps.*1.
Proof.
  intros H. destruct (decide (key ∈ ps.*1)) as [| Hn]; [assumption |].
  rewrite (lookup_property_None _ _ Hn) in H. discriminate.
Qed.

Lemma prototype_registration handler key p :
  lookup_property key (SagaHandler.proto handler) = Some p →
  isNullOrUndefined (prop_value p) = false →
  isGenerator (handle_prototype (prop_value p)) = false →
  key ≠ "constructor" →
  (key, prop_value p) ∈ registrations handler ∧
  table handler !! qualified handler key = Some (prop_value p).
Proof.
  intros Hp Hnull Hgen Hc.
  assert (He : proto_entry handler key = Some (prop_value p)).
  { unfold proto_entry. rewrite Hp. cbv zeta. rewrite Hnull, Hgen. reflexivity. }
  split.
  - apply elem_of_app. right. apply entries_elem. split; [| exact He].
    apply list_elem_of_In, filter_In. split.
    + apply list_elem_of_In, (lookup_property_elem _ _ _ Hp).
    + apply negb_true_iff, String.eqb_neq, Hc.
  - rewrite table_lookup. unfold table_entry.
    apply String.eqb_neq in Hc. rewrite Hc, He. reflexivity.
Qed.

(** The map of the handler in the world in which the loops start. *)
Lemma initialised_lookup handler w :
  (∀ l, SagaHandler.actionNames handler = Some l → is_Some (maps w !! l)) →
  ∃ m0, maps (initialised handler w) !! names_loc handler w = Some m0.
Proof.
  intros Hwf. unfold initialised, names_loc.
  destruct (SagaHandler.actionNames handler) as [l|].
  - destruct (Hwf l eq_refl) as [m0 Hm0]. eauto.
  - exists ∅. cbn. rewrite lookup_app_r by lia.
    rewrite Nat.sub_diag. reflexivity.
Qed.

(** X9. A second call of [createReducerByHandler] on the handler the first
    call leaves changes nothing: it returns the same handler and the same
    reducer, and the world, the map of action names in it, is as the first
    call left it. *)
Theorem createReducerByHandler_again handler w handler1 r1 w1 :
  createReducerByHandler handler w = Normal ((handler1, r1), w1) →
  createReducerByHandler handler1 w1 = Normal ((handler1, r1), w1).
Proof.
  rewrite createReducerByHandler_eq. intros H. injection H as <- <- <-.
  rewrite createReducerByHandler_eq.
  cbn [names_loc initialised with_actionNames SagaHandler.actionNames
       SagaHandler.proto SagaHandler.default].
  f_equal. f_equal.
  apply with_map_compose. intros m. symmetry. apply set_names_idempotent.
Qed.

Lemma createReducerByHandler_again_witness :
  createReducerByHandler (with_actionNames Samples.getter_setter 0)
    Samples.classified
  = Normal ((with_actionNames Samples.getter_setter 0,
             reducer (table Samples.getter_setter) (VNumber 0)),
            Samples.classified).
Proof.
  apply (createReducerByHandler_again Samples.getter_setter
           {| maps := []; DEFAULT_STORE := Some {| dispatched := [] |};
              sagaHandlers := ["H"] |}).
  reflexivity.
Defined.

(** X10. After [createReducerByHandler] on a handler that had no map, every
    entry of its map goes from the getter name derived from a setter name
    to that setter name, and the setter name is the key of an entry of the
    table. *)
Theorem action_names_are_registered
    handler w handler' actions w' l m k v :
  build_actions handler w = Normal ((handler', actions), w') →
  SagaHandler.actionNames handler = None →
  SagaHandler.actionNames handler' = Some l →
  maps w' !! l = Some m →
  m !! k = Some v →
  JSString.startsWith v "set" = true ∧
  k = convertFunctionNameByPrefix v ∧
  is_Some (actions !! qualified handler v).
Proof.
  rewrite build_actions_eq. intros H Hnone Hl Hm Hk.
  injection H as <- <- <-. unfold names_loc, initialised in *.
  rewrite Hnone in *. cbn in Hl. injection Hl as <-.
  cbn [with_map with_new_map maps] in Hm.
  rewrite list_lookup_alter_eq, lookup_app_r, Nat.sub_diag in Hm by lia.
  cbn in Hm. injection Hm as <-.
  rewrite set_names_lookup, lookup_empty in Hk.
  destruct (last_name _ k _) as [v'|] eqn:Hlast; [| discriminate].
  injection Hk as ->.
  apply last_name_Some in Hlast as (Hw & Hc & x & Hx).
  unfold writes_name in Hw. apply andb_true_iff in Hw as [Hset _].
  split; [exact Hset |]. split; [symmetry; exact Hc |].
  unfold table, qualified. rewrite register_all_lookup.
  destruct (last_entry_is_Some _ _ _ Hx) as [y ->]. eauto.
Qed.

Lemma action_names_are_registered_witness :
  JSString.startsWith "setCount" "set" = true ∧
  "count" = convertFunctionNameByPrefix "setCount" ∧
  is_Some (table Samples.getter_setter !! "H.setCount").
Proof.
  apply (action_names_are_registered Samples.getter_setter Samples.no_store
           (with_actionNames Samples.getter_setter 0)
           (table Samples.getter_setter)
           {| maps := [{["count" := "setCount"]}];
              DEFAULT_STORE := None; sagaHandlers := [] |}
           0 {["count" := "setCount"]} "count" "setCount");
    reflexivity.
Defined.

(** ** The proxy and the reducer together *)

(** X11. A setter and its own reducer.  Let [key] name a function of the
    prototype that is no generator, with [addAction] writing it to the map
    (it starts with "set" and the derived getter name is a property of the
    prototype), no other registered name writing under the same getter
    name, and "<name>.<key>" not ending with the suffix.  After
    [createReducerByHandler], the registration of a store and
    [createReduxHandler], calling [key] on the proxy dispatches the type
    "<name>.<key>" without suffix, and the reducer answers that action with
    the function applied to the state and the first argument. *)
Theorem setter_call_reaches_its_function
    handler w store key p f params s :
  lookup_property key (SagaHandler.proto handler) = Some p →
  prop_value p = HFunction f →
  isGenerator (prototype f) = false →
  key ≠ "constructor" →
  writes_name (SagaHandler.proto handler) key = true →
  JSString.endsWith (qualified handler key) SAGA_ACTION_TYPE_SUFFIX = false →
  (∀ key' x, (key', x) ∈ registrations handler →
             writes_name (SagaHandler.proto handler) key' = true →
             convertFunctionNameByPrefix key' = convertFunctionNameByPrefix key →
             key' = key) →
  (∀ l, SagaHandler.actionNames handler = Some l → is_Some (maps w !! l)) →
  ∃ handler' r w1 w2 proxy w3 action,
    createReducerByHandler handler w = Normal ((handler', r), w1) ∧
    registerStoreByProxy store w1 = Normal (tt, w2) ∧
    createReduxHandler handler' false w2 = Normal (proxy, w3) ∧
    proxyHandler_get proxy handler' (KString key) params w3
    = Normal (action, after_dispatch w3 store action) ∧
    ReduxAction.type action = qualified handler key ∧
    r s action
    = call f (default_parameter (SagaHandler.default handler) s)
             (nth 0 params VUndefined).
Proof.
  intros Hp Hf Hgen Hc Hw Hs Huniq Hwf.
  assert (Hnull : isNullOrUndefined (prop_value p) = false)
    by (rewrite Hf; reflexivity).
  assert (Hgen' : isGenerator (handle_prototype (prop_value p)) = false)
    by (rewrite Hf; exact Hgen).
  destruct (prototype_registration handler key p Hp Hnull Hgen' Hc)
    as [Hreg Htable].
  destruct (initialised_lookup handler w Hwf) as [m0 Hm0].
  set (l := names_loc handler w) in *.
  set (w1 := with_map l (set_names (SagaHandler.proto handler)
                           (registrations handler)) (initialised handler w)).
  set (w3 := {| maps := maps w1; DEFAULT_STORE := Some store;
                sagaHandlers := sagaHandlers w1
                                ++ [SagaHandler.constructor_name handler] |}).
  assert (Hname : is_action_name (with_actionNames handler l) w3 key).
  { exists l, (set_names (SagaHandler.proto handler) (registrations handler) m0),
           (convertFunctionNameByPrefix key).
    split; [reflexivity |]. split.
    - cbn [w3 w1 with_map maps]. rewrite list_lookup_alter_eq, Hm0. reflexivity.
    - rewrite set_names_lookup.
      destruct (last_name_is_Some _ _ _ _ Hreg Hw) as [v Hv]. rewrite Hv.
      destruct (last_name_Some _ _ _ _ Hv) as (Hwv & Hcv & x & Hx).
      rewrite (Huniq v x Hx Hwv Hcv). reflexivity. }
  destruct (proxyHandler_get_string
              {| handlerName := SagaHandler.constructor_name handler;
                 pureAction := false |}
              (with_actionNames handler l) key params w3 store eq_refl)
    as (isPure & Hiff & E).
  assert (isPure = true) as -> by (apply Hiff; right; exact Hname).
  eexists _, _, w1, _, _, w3, _.
  split; [apply createReducerByHandler_eq |].
  split; [reflexivity |]. split; [reflexivity |].
  split; [exact E |]. split; [reflexivity |].
  apply (reducer_function (table handler)); [exact Hs |].
  cbn [ReduxAction.type handlerName]. fold (qualified handler key).
  rewrite Htable, Hf. reflexivity.
Qed.

Lemma setter_call_reaches_its_function_witness :
  ∃ handler' r w1 w2 proxy w3 action,
    createReducerByHandler Samples.getter_setter Samples.no_store
    = Normal ((handler', r), w1) ∧
    registerStoreByProxy {| dispatched := [] |} w1 = Normal (tt, w2) ∧
    createReduxHandler handler' false w2 = Normal (proxy, w3) ∧
    proxyHandler_get proxy handler' (KString "setCount") [VNumber 5] w3
    = Normal (action, after_dispatch w3 {| dispatched := [] |} action) ∧
    ReduxAction.type action = "H.setCount" ∧
    r (VNumber 1) action = Normal (VNumber 5).
Proof.
  apply (setter_call_reaches_its_function
           Samples.getter_setter Samples.no_store {| dispatched := [] |}
           "setCount" (Samples.method (fun state payload => Normal payload))
           {| call := fun state payload => Normal payload;
              prototype := NoPrototype |}
           [VNumber 5] (VNumber 1));
    try reflexivity.
  - discriminate.
  - intros key' x Hin Hw _. apply list_elem_of_In in Hin. cbn in Hin.
    destruct Hin as [Hin | [Hin | []]]; injection Hin as <- _;
      [reflexivity | discriminate Hw].
  - discriminate.
Defined.

(** X12. An action that the proxy dispatches with the suffix changes the
    state of no reducer: for a proxy that is not pure and a name that is not
    among the values of the map, the reducer of every handler returns its
    state parameter for the dispatched action. *)
Theorem saga_dispatch_changes_no_state
    handler w0 proxy w1 target n params w store other w_other s :
  createReduxHandler handler false w0 = Normal (proxy, w1) →
  DEFAULT_STORE w = Some store →
  ¬ is_action_name target w n →
  ∃ action other' r w_other',
    proxyHandler_get proxy target (KString n) params w
    = Normal (action, after_dispatch w store action) ∧
    createReducerByHandler other w_other = Normal ((other', r), w_other') ∧
    r s action = Normal (default_parameter (SagaHandler.default other) s).
Proof.
  rewrite createReduxHandler_spec. intros Hc Hstore Hnot. injection Hc as <- _.
  destruct (proxyHandler_get_string
              {| handlerName := SagaHandler.constructor_name handler;
                 pureAction := false |} target n params w store Hstore)
    as (isPure & Hiff & E).
  destruct isPure.
  - exfalso. destruct (proj1 Hiff eq_refl) as [H | H]; [discriminate | auto].
  - eexists _, _, _, _. split; [exact E |].
    split; [apply createReducerByHandler_eq |].
    apply reducer_saga. apply endsWith_append.
Qed.

Lemma saga_dispatch_changes_no_state_witness :
  ∃ action other' r w_other',
    proxyHandler_get {| handlerName := "H"; pureAction := false |}
      Samples.fetcher (KString "fetchData") [VNull] Samples.with_store
    = Normal (action,
              after_dispatch Samples.with_store {| dispatched := [] |} action) ∧
    createReducerByHandler Samples.counter Samples.no_store
    = Normal ((other', r), w_other') ∧
    r (VNumber 6) action = Normal (VNumber 6).
Proof.
  apply (saga_dispatch_changes_no_state
           Samples.fetcher Samples.no_store
           {| handlerName := "H"; pureAction := false |}
           {| maps := []; DEFAULT_STORE := None; sagaHandlers := ["H"] |}
           Samples.fetcher "fetchData" [VNull] Samples.with_store
           {| dispatched := [] |} Samples.counter Samples.no_store (VNumber 6));
    [reflexivity | reflexivity |].
  intros (l & m & k & Hl & _). discriminate Hl.
Defined.

Lemma proxyHandler_get_no_store_witness :
  ∃ e, proxyHandler_get {| handlerName := "H"; pureAction := true |}
         Samples.counter (KString "setCount") [VNumber 5] Samples.no_store
       = Throw e.
Proof.
  apply (proxyHandler_get_no_store {| handlerName := "H"; pureAction := true |}
           Samples.counter (KString "setCount") [VNumber 5] Samples.no_store).
  reflexivity.
Defined.

Lemma getReducerTypeNameBySaga_absent_witness :
  getReducerTypeNameBySaga "H.setCount" = "H.setCount".
Proof.
  apply (getReducerTypeNameBySaga_absent "H.setCount"). reflexivity.
Defined.

(** X14. [registerStoreByProxy] replaces the store, whatever was registered
    before, and the calls on a proxy that follow reach the new store in
    their order: after two calls it holds its own actions and then the two
    dispatched ones; the maps are as they were. *)
Theorem proxy_calls_reach_the_registered_store
    proxy target n1 n2 params1 params2 w store :
  ∃ w1 a1 w2 a2 w3,
    registerStoreByProxy store w = Normal (tt, w1) ∧
    proxyHandler_get proxy target (KString n1) params1 w1 = Normal (a1, w2) ∧
    proxyHandler_get proxy target (KString n2) params2 w2 = Normal (a2, w3) ∧
    DEFAULT_STORE w3 = Some {| dispatched := dispatched store ++ [a1; a2] |} ∧
    ReduxAction.payload a1 = nth 0 params1 VUndefined ∧
    ReduxAction.payload a2 = nth 0 params2 VUndefined ∧
    maps w3 = maps w.
Proof.
  set (w1 := {| maps := maps w; DEFAULT_STORE := Some store;
                sagaHandlers := sagaHandlers w |}).
  destruct (proxyHandler_get_string proxy target n1 params1 w1 store eq_refl)
    as (pure1 & _ & E1).
  cbv zeta in E1.
  match type of E1 with _ = Normal (?a, ?w') => set (a1 := a) in *; set (w2 := w') in * end.
  destruct (proxyHandler_get_string proxy target n2 params2 w2
              {| dispatched := dispatched store ++ [a1] |} eq_refl)
    as (pure2 & _ & E2).
  cbv zeta in E2.
  eexists w1, a1, w2, _, _. split; [reflexivity |].
  split; [exact E1 |]. split; [exact E2 |].
  cbn [after_dispatch DEFAULT_STORE maps dispatched].
  rewrite <- app_assoc. repeat split; reflexivity.
Qed.
